(** * ingress-traefik-converter: the configuration-snippet converter

    A shallow embedding of [pkg/converters/middleware/configuration_snippet.go]
    and of the parts of the Go standard library it calls, followed by the
    properties of the snippet translation engine.

    Go strings are byte sequences; they are modelled by [string] (a list of
    8-bit [ascii]).  Go's [int] and [int64] are modelled by [Z].  Go maps are
    stdpp's [gmap]; slices are lists. *)

From Stdlib Require Import ZArith Ascii String.
From stdpp Require Import base option list gmap strings.

Local Open Scope Z_scope.

(** ** Package [strings] of the Go standard library

    Byte-level models.  Case mapping and white space follow the ASCII part of
    Go's definitions: [ToLower] maps 'A'..'Z' and leaves every other byte
    alone, and white space is '\t', '\n', '\v', '\f', '\r' and ' '. *)

Module strings.

Definition len (s : string) : Z := Z.of_nat (String.length s).

(** [s[lo:hi]] and [s[lo:]] for indices within the string. *)
Definition slice (s : string) (lo hi : Z) : string :=
  String.substring (Z.to_nat lo) (Z.to_nat (hi - lo)) s.

Definition sliceFrom (s : string) (lo : Z) : string :=
  String.substring (Z.to_nat lo) (String.length s - Z.to_nat lo)%nat s.

Definition HasPrefix (s prefix : string) : bool := String.prefix prefix s.

Definition HasSuffix (s suffix : string) : bool :=
  String.prefix (String.rev suffix) (String.rev s).

Fixpoint indexFrom (i : Z) (s substr : string) : Z :=
  if HasPrefix s substr then i
  else match s with
       | EmptyString => -1
       | String _ s' => indexFrom (i + 1) s' substr
       end.

(** Index of the first instance of [substr] in [s], or -1. *)
Definition Index (s substr : string) : Z := indexFrom 0 s substr.

Fixpoint lastIndexFrom (i found : Z) (s substr : string) : Z :=
  let found' := if HasPrefix s substr then i else found in
  match s with
  | EmptyString => found'
  | String _ s' => lastIndexFrom (i + 1) found' s' substr
  end.

(** Index of the last instance of [substr] in [s], or -1. *)
Definition LastIndex (s substr : string) : Z := lastIndexFrom 0 (-1) s substr.

Definition Contains (s substr : string) : bool := 0 <=? Index s substr.

Definition isSpace (c : ascii) : bool :=
  match c with
  | "009" | "010" | "011" | "012" | "013" | " " => true
  | _ => false
  end%char.

Fixpoint TrimLeftFunc (f : ascii -> bool) (s : string) : string :=
  match s with
  | EmptyString => EmptyString
  | String c s' => if f c then TrimLeftFunc f s' else s
  end.

Fixpoint TrimRightFunc (f : ascii -> bool) (s : string) : string :=
  match s with
  | EmptyString => EmptyString
  | String c s' =>
      match TrimRightFunc f s' with
      | EmptyString => if f c then EmptyString else String c EmptyString
      | t => String c t
      end
  end.

Definition TrimSpace (s : string) : string :=
  TrimRightFunc isSpace (TrimLeftFunc isSpace s).

Fixpoint inCutset (cutset : string) (c : ascii) : bool :=
  match cutset with
  | EmptyString => false
  | String d cutset' => Ascii.eqb c d || inCutset cutset' c
  end.

Definition Trim (s cutset : string) : string :=
  TrimRightFunc (inCutset cutset) (TrimLeftFunc (inCutset cutset) s).

Definition TrimSuffix (s suffix : string) : string :=
  if HasSuffix s suffix then slice s 0 (len s - len suffix) else s.

Definition lowerByte (c : ascii) : ascii :=
  let n := N_of_ascii c in
  if ((65 <=? n) && (n <=? 90))%N then ascii_of_N (n + 32) else c.

Fixpoint ToLower (s : string) : string :=
  match s with
  | EmptyString => EmptyString
  | String c s' => String (lowerByte c) (ToLower s')
  end.

Fixpoint fieldsGo (cur : string) (s : string) : list string :=
  match s with
  | EmptyString => match cur with EmptyString => [] | _ => [String.rev cur] end
  | String c s' =>
      if isSpace c then
        match cur with
        | EmptyString => fieldsGo EmptyString s'
        | _ => String.rev cur :: fieldsGo EmptyString s'
        end
      else fieldsGo (String c cur) s'
  end.

(** The maximal runs of non-space bytes of [s], in order. *)
Definition Fields (s : string) : list string := fieldsGo EmptyString s.

(** [SplitN s sep n] for a non-empty [sep] and [n >= 0]: at most [n]
    substrings, the last one being the unsplit remainder. *)
Fixpoint SplitN (s sep : string) (n : nat) : list string :=
  match n with
  | O => []
  | S O => [s]
  | S n' =>
      let i := Index s sep in
      if i <? 0 then [s]
      else slice s 0 i :: SplitN (sliceFrom s (i + len sep)) sep n'
  end.

(** [Split s sep] is [SplitN] with [n = Count(s, sep) + 1]; the count of a
    non-empty separator is at most the length of [s], and a larger [n] gives
    the same list. *)
Definition Split (s sep : string) : list string :=
  SplitN s sep (S (String.length s)).

Definition Join (elems : list string) (sep : string) : string :=
  String.concat sep elems.

Definition upperByte (c : ascii) : ascii :=
  let n := N_of_ascii c in
  if ((97 <=? n) && (n <=? 122))%N then ascii_of_N (n - 32) else c.

Fixpoint ToUpper (s : string) : string :=
  match s with
  | EmptyString => EmptyString
  | String c s' => String (upperByte c) (ToUpper s')
  end.

End strings.

(** ** Package [strconv]: [ParseInt(s, 10, 64)]

    As documented for Go: a syntax error returns 0; a value that cannot be
    represented returns the nearest representable value together with a range
    error.  [ParseUint] reports the range error at the digit where the
    accumulator overflows, before it looks at the rest of the input. *)

Module strconv.

Inductive NumError := ErrSyntax | ErrRange.

Definition maxUint64 : Z := 2 ^ 64 - 1.

Definition digitVal (c : ascii) : option Z :=
  let n := Z.of_N (N_of_ascii c) in
  if (48 <=? n) && (n <=? 57) then Some (n - 48) else None.

Fixpoint parseUintLoop (s : string) (n : Z) : Z * option NumError :=
  match s with
  | EmptyString => (n, None)
  | String c s' =>
      match digitVal c with
      | None => (0, Some ErrSyntax)
      | Some d =>
          if maxUint64 / 10 + 1 <=? n then (maxUint64, Some ErrRange)
          else
            let n := n * 10 in
            let n1 := (n + d) mod 2 ^ 64 in
            if (n1 <? n) || (maxUint64 <? n1) then (maxUint64, Some ErrRange)
            else parseUintLoop s' n1
      end
  end.

Definition ParseUint10 (s : string) : Z * option NumError :=
  match s with
  | EmptyString => (0, Some ErrSyntax)
  | _ => parseUintLoop s 0
  end.

Definition ParseInt10 (s : string) : Z * option NumError :=
  match s with
  | EmptyString => (0, Some ErrSyntax)
  | String c s' =>
      let '(neg, digits) :=
        if Ascii.eqb c "+" then (false, s')
        else if Ascii.eqb c "-" then (true, s')
        else (false, s) in
      match ParseUint10 digits with
      | (_, Some ErrSyntax) => (0, Some ErrSyntax)
      | (un, _) =>
          let cutoff := 2 ^ 63 in
          if negb neg && (cutoff <=? un) then (cutoff - 1, Some ErrRange)
          else if neg && (cutoff <? un) then (- cutoff, Some ErrRange)
          else (if neg then - un else un, None)
      end
  end.

End strconv.

(** ** The compiled pattern [originIfRe]

    [\$http_origin\s+~\*\s+\((.+?)\)\s*\)] under Go's leftmost-first
    matching.  Every repetition in the pattern is followed by a byte it
    cannot consume ([\s+] by '~' or '(', [\s*] by ')'), so the greedy ones
    match maximally; the lazy group takes the shortest non-empty run of
    non-newline bytes after which [\)\s*\)] matches.  [\s] is
    '\t', '\n', '\f', '\r' and ' '. *)

Module originIfRe.

Definition reSpace (c : ascii) : bool :=
  match c with
  | "009" | "010" | "012" | "013" | " " => true
  | _ => false
  end%char.

(** A literal at the head of [s]; the remainder on success. *)
Definition lit (p s : string) : option string :=
  if strings.HasPrefix s p
  then Some (strings.sliceFrom s (strings.len p)) else None.

(** [\s+] at the head of [s]. *)
Definition spaces1 (s : string) : option string :=
  match s with
  | String c s' =>
      if reSpace c then Some (strings.TrimLeftFunc reSpace s') else None
  | EmptyString => None
  end.

(** [\)\s*\)] at the head of [s]. *)
Definition closes (s : string) : bool :=
  match lit ")" s with
  | Some r => bool_decide (is_Some (lit ")" (strings.TrimLeftFunc reSpace r)))
  | None => false
  end.

(** [(.+?)] followed by [\)\s*\)]; [acc] holds the bytes taken so far,
    last one first. *)
Fixpoint lazyGroup (acc s : string) : option string :=
  match s with
  | EmptyString => None
  | String c s' =>
      if Ascii.eqb c "010" then None
      else if closes s' then Some (String.rev (String c acc))
      else lazyGroup (String c acc) s'
  end.

Definition matchHere (s : string) : option string :=
  r1 ← lit "$http_origin" s;
  r2 ← spaces1 r1;
  r3 ← lit "~*" r2;
  r4 ← spaces1 r3;
  r5 ← lit "(" r4;
  lazyGroup EmptyString r5.

(** The text of capture group 1 of the leftmost match, if any
    ([FindStringSubmatch] returns the whole match and this group, a slice of
    length 2, or nil). *)
Fixpoint FindStringSubmatch (s : string) : option string :=
  match matchHere s with
  | Some g => Some g
  | None =>
      match s with
      | EmptyString => None
      | String _ s' => FindStringSubmatch s'
      end
  end.

End originIfRe.

(** ** Output objects

    Only the fields this package writes are kept; every other field of the
    Kubernetes and Traefik structs keeps its zero value. *)

Module metav1.
Record TypeMeta := { APIVersion : string; Kind : string }.
Record ObjectMeta := { Name : string; Namespace : string }.
End metav1.

Module dynamic.
Record Headers := {
  CustomRequestHeaders : gmap string string;
  CustomResponseHeaders : gmap string string;
  AccessControlAllowCredentials : bool;
  AccessControlAllowHeaders : list string;
  AccessControlAllowMethods : list string;
  AccessControlAllowOriginListRegex : list string;
  AccessControlMaxAge : Z
}.
Record RedirectScheme := { Scheme : string; Permanent : bool }.
End dynamic.

Module traefik.
Record MiddlewareSpec := {
  Headers : option dynamic.Headers;
  RedirectScheme : option dynamic.RedirectScheme
}.
Record Middleware := {
  TypeMeta : metav1.TypeMeta;
  ObjectMeta : metav1.ObjectMeta;
  Spec : MiddlewareSpec
}.
(** [SchemeGroupVersion.String()] of the Traefik CRD package. *)
Definition SchemeGroupVersion : string := "traefik.io/v1alpha1".
End traefik.

(** ** Package [configs]: the conversion context

    A converter is a function from the context before the call to the
    context after it; the debug logger is left out. *)

Module configs.

(** Modelled from the spec: the object behind the pointer [ctx.Result],
    declared in package [configs] and shared by all converters; it holds the
    ordered middlewares and the ordered warnings of one conversion run. *)
Record ConversionResult := {
  Middlewares : list traefik.Middleware;
  Warnings : list string
}.

(** Modelled from the spec: the context handed to every converter, declared
    in package [configs]; the naming fields, the annotations of the ingress
    and the shared result. *)
Record Context := {
  IngressName : string;
  Namespace : string;
  Annotations : gmap string string;
  Result : ConversionResult
}.

End configs.

Import configs.

(** [ctx.Result.Warnings = append(ctx.Result.Warnings, ws...)] *)
Definition appendWarnings (ctx : Context) (ws : list string) : Context :=
  {| IngressName := IngressName ctx;
     Namespace := Namespace ctx;
     Annotations := Annotations ctx;
     Result := {| Middlewares := Middlewares (Result ctx);
                  Warnings := Warnings (Result ctx) ++ ws |} |}.

(** [ctx.Result.Middlewares = append(ctx.Result.Middlewares, mw)] *)
Definition appendMiddleware (ctx : Context) (mw : traefik.Middleware) : Context :=
  {| IngressName := IngressName ctx;
     Namespace := Namespace ctx;
     Annotations := Annotations ctx;
     Result := {| Middlewares := Middlewares (Result ctx) ++ [mw];
                  Warnings := Warnings (Result ctx) |} |}.

(** Modelled from the spec: [mwName], declared in another file of the
    package; the output object name is the base resource name, a dash and the
    fixed suffix. *)
Definition mwName (ctx : Context) (name : string) : string :=
  IngressName ctx +:+ "-" +:+ name.

(** ** configuration_snippet.go *)

Record unsupportedDirective := { Enterprise : bool; Message : string }.

Record corsConfig := {
  OriginRegex : string;
  AllowHeaders : list string;
  AllowMethods : list string;
  AllowCreds : option bool;
  MaxAge : Z
}.

Definition unsupported : gmap string unsupportedDirective :=
  list_to_map [
    ("gzip", {| Enterprise := false;
       Message := "gzip is only configurable via middleware in Traefik and was ignored" |});
    ("gzip_comp_level", {| Enterprise := false;
       Message := "gzip_comp_level is not configurable in Traefik" |});
    ("gzip_types", {| Enterprise := false;
       Message := "gzip_types is not configurable in Traefik" |});
    ("proxy_buffer_size", {| Enterprise := false;
       Message := "proxy_buffer_size is not supported in Traefik" |});
    ("proxy_cache", {| Enterprise := true;
       Message := "proxy_cache is not supported in Traefik OSS" |})
  ].

(** *** Helpers *)

Definition newline : string := String "010" EmptyString.
Definition dquote : string := String "034" EmptyString.
Definition squote : string := "'".

Definition nonEmpty (s : string) : bool :=
  match s with EmptyString => false | _ => true end.

Definition splitLines (s : string) : list string :=
  filter (fun t => nonEmpty t = true) (strings.TrimSpace <$> strings.Split s newline).

Definition directive (line : string) : string :=
  match strings.Fields line with
  | [] => ""
  | f :: _ => f
  end.

Definition warnUnsupported (warnings : list string) (d : unsupportedDirective)
  : list string :=
  let msg := Message d in
  let msg :=
    if Enterprise d
    then msg +:+ ". Traefik Enterprise provides an alternative, but it cannot be auto-converted."
    else msg in
  warnings ++ [msg].

Definition newHeadersMiddleware (ctx : Context) (name : string)
    (headers : dynamic.Headers) : traefik.Middleware :=
  {| traefik.TypeMeta :=
       {| metav1.APIVersion := traefik.SchemeGroupVersion;
          metav1.Kind := "Middleware" |};
     traefik.ObjectMeta :=
       {| metav1.Name := mwName ctx name;
          metav1.Namespace := Namespace ctx |};
     traefik.Spec :=
       {| traefik.Headers := Some headers;
          traefik.RedirectScheme := None |} |}.

(** *** Parsing helpers *)

Definition parseProxySetHeader (line : string) : string * string :=
  let line := strings.TrimSuffix line ";" in
  let parts := strings.Fields line in
  if (length parts <? 3)%nat then ("", "")
  else (strings.Trim (parts !!! 1%nat) dquote,
        strings.Join (drop 2 parts) " ").

Definition parseResponseHeader (line : string) : string * string * bool :=
  let line := strings.TrimSuffix (strings.TrimSpace line) ";" in
  if strings.HasPrefix line "more_set_headers" then
    let start := strings.Index line dquote in
    let end_ := strings.LastIndex line dquote in
    if (start =? -1) || (end_ <=? start) then ("", "", false)
    else
      match strings.SplitN (strings.slice line (start + 1) end_) ":" 2 with
      | [k; v] => (strings.TrimSpace k, strings.TrimSpace v, true)
      | _ => ("", "", false)
      end
  else if strings.HasPrefix line "add_header" then
    let fields := strings.Fields line in
    if (length fields <? 3)%nat then ("", "", false)
    else (strings.Trim (fields !!! 1%nat) dquote,
          strings.Trim (strings.Join (drop 2 fields) " ") dquote,
          true)
  else ("", "", false).

Fixpoint extractOriginRegex (lines : list string) : string * bool :=
  match lines with
  | [] => ("", false)
  | l :: rest =>
      match originIfRe.FindStringSubmatch l with
      | Some m1 => (m1, true)
      | None => extractOriginRegex rest
      end
  end.

(** The inner [for] loop of [extractQuotedHeaderValue] for one quote
    character.  Every round removes at least the two quote bytes from [tmp],
    so [fuel] rounds with [fuel] above the length of [tmp] run the loop to
    its [break]. *)
Fixpoint quotedLoop (fuel : nat) (quote tmp : string) (values : list string)
  : list string :=
  match fuel with
  | O => values
  | S fuel' =>
      let start := strings.Index tmp quote in
      if start =? -1 then values
      else
        let end_ := strings.Index (strings.sliceFrom tmp (start + 1)) quote in
        if end_ =? -1 then values
        else
          let end_ := start + 1 + end_ in
          quotedLoop fuel' quote (strings.sliceFrom tmp (end_ + 1))
            (values ++ [strings.slice tmp (start + 1) end_])
  end.

Definition extractQuotedHeaderValue (line : string) : string :=
  let values :=
    fold_left (fun values quote =>
                 quotedLoop (S (String.length line)) quote line values)
              [dquote; squote] [] in
  match last values with
  | None => ""
  | Some v => v
  end.

Definition splitCSV (v : string) : list string :=
  filter (fun s => nonEmpty s = true) (strings.TrimSpace <$> strings.Split v ",").

Definition extractInt (line : string) : Z :=
  match last (strings.Fields line) with
  | None => 0
  | Some f => fst (strconv.ParseInt10 (strings.TrimSuffix f ";"))
  end.

(** *** Generic snippet handling *)

Record genericState := {
  reqHeaders : gmap string string;
  respHeaders : gmap string string;
  warnings : list string
}.

Definition isOneOf (d : string) (cases : list string) : bool :=
  existsb (String.eqb d) cases.

(** One round of the [for] loop of [convertGenericSnippet]. *)
Definition genericStep (st : genericState) (raw : string) : genericState :=
  let line := strings.TrimSpace raw in
  if negb (nonEmpty line) then st
  else
    let lower := strings.ToLower line in
    if isOneOf (directive lower) ["add_header"; "more_set_headers"] then
      match parseResponseHeader line with
      | (k, v, true) =>
          {| reqHeaders := reqHeaders st;
             respHeaders := <[k := v]> (respHeaders st);
             warnings := warnings st |}
      | (_, _, false) =>
          {| reqHeaders := reqHeaders st;
             respHeaders := respHeaders st;
             warnings := warnings st ++ ["failed to parse header directive: " +:+ line] |}
      end
    else if isOneOf (directive lower) ["proxy_set_header"] then
      let '(key, val) := parseProxySetHeader line in
      let req := if nonEmpty key then <[key := val]> (reqHeaders st)
                 else reqHeaders st in
      let ws :=
        if strings.Contains val "$"
        then warnings st ++
             ["proxy_set_header uses NGINX variables which are not evaluated by Traefik"]
        else warnings st in
      {| reqHeaders := req; respHeaders := respHeaders st; warnings := ws |}
    else if isOneOf (directive lower)
              ["gzip"; "gzip_comp_level"; "gzip_types"; "proxy_buffer_size"; "proxy_cache"] then
      match unsupported !! directive lower with
      | Some u =>
          {| reqHeaders := reqHeaders st;
             respHeaders := respHeaders st;
             warnings := warnUnsupported (warnings st) u |}
      | None => st
      end
    else
      {| reqHeaders := reqHeaders st;
         respHeaders := respHeaders st;
         warnings := warnings st ++
           ["unsupported directive in configuration-snippet was ignored: " +:+ line] |}.

Definition genericScan (lines : list string) : genericState :=
  fold_left genericStep lines
    {| reqHeaders := ∅; respHeaders := ∅; warnings := [] |}.

Definition snippetHeaders (st : genericState) : dynamic.Headers :=
  {| dynamic.CustomRequestHeaders := reqHeaders st;
     dynamic.CustomResponseHeaders := respHeaders st;
     dynamic.AccessControlAllowCredentials := false;
     dynamic.AccessControlAllowHeaders := [];
     dynamic.AccessControlAllowMethods := [];
     dynamic.AccessControlAllowOriginListRegex := [];
     dynamic.AccessControlMaxAge := 0 |}.

Definition convertGenericSnippet (ctx : Context) (lines : list string) : Context :=
  let st := genericScan lines in
  let ctx := appendWarnings ctx (warnings st) in
  if bool_decide (size (reqHeaders st) = 0%nat)
     && bool_decide (size (respHeaders st) = 0%nat)
  then ctx
  else appendMiddleware ctx
         (newHeadersMiddleware ctx "snippet-headers" (snippetHeaders st)).

(** *** CORS handling *)

Definition disqualifies (l : string) : bool :=
  strings.Contains l "rewrite"
  || strings.Contains l "proxy_pass"
  || strings.Contains l "fastcgi"
  || strings.Contains l "lua_"
  || strings.Contains l "set ".

(** The loop of [isConditionalCORSSnippet], with its two flags and its
    early [return false]. *)
Fixpoint conditionalCORSLoop (lines : list string) (hasOriginIf hasMethods : bool)
  : bool :=
  match lines with
  | [] => hasOriginIf && hasMethods
  | raw :: rest =>
      let l := strings.ToLower raw in
      let hasOriginIf :=
        if strings.Contains l "if ($http_origin" then true else hasOriginIf in
      let hasMethods :=
        if strings.Contains l "access-control-allow-methods" then true
        else hasMethods in
      if disqualifies l then false
      else conditionalCORSLoop rest hasOriginIf hasMethods
  end.

Definition isConditionalCORSSnippet (lines : list string) : bool :=
  conditionalCORSLoop lines false false.

(** One round of the scan of [parseConditionalCORSSnippet]. *)
Definition corsStep (cfg : corsConfig) (raw : string) : corsConfig :=
  let line := strings.TrimSpace raw in
  let lower := strings.ToLower line in
  if strings.Contains lower "access-control-allow-headers" then
    {| OriginRegex := OriginRegex cfg;
       AllowHeaders := splitCSV (extractQuotedHeaderValue line);
       AllowMethods := AllowMethods cfg;
       AllowCreds := AllowCreds cfg;
       MaxAge := MaxAge cfg |}
  else if strings.Contains lower "access-control-allow-methods" then
    {| OriginRegex := OriginRegex cfg;
       AllowHeaders := AllowHeaders cfg;
       AllowMethods := splitCSV (extractQuotedHeaderValue line);
       AllowCreds := AllowCreds cfg;
       MaxAge := MaxAge cfg |}
  else if strings.Contains lower "access-control-allow-credentials" then
    let v := strings.ToLower (extractQuotedHeaderValue line) in
    if String.eqb v "true" || String.eqb v "false" then
      {| OriginRegex := OriginRegex cfg;
         AllowHeaders := AllowHeaders cfg;
         AllowMethods := AllowMethods cfg;
         AllowCreds := Some (String.eqb v "true");
         MaxAge := MaxAge cfg |}
    else cfg
  else if strings.Contains lower "access-control-max-age" then
    let age := extractInt line in
    if 0 <? age then
      {| OriginRegex := OriginRegex cfg;
         AllowHeaders := AllowHeaders cfg;
         AllowMethods := AllowMethods cfg;
         AllowCreds := AllowCreds cfg;
         MaxAge := age |}
    else cfg
  else cfg.

Definition corsScan (lines : list string) (origin : string) : corsConfig :=
  fold_left corsStep lines
    {| OriginRegex := origin; AllowHeaders := []; AllowMethods := [];
       AllowCreds := None; MaxAge := 0 |}.

Definition defaultMethods : list string :=
  ["GET"; "POST"; "PUT"; "DELETE"; "OPTIONS"].

Definition parseConditionalCORSSnippet (lines : list string)
  : corsConfig + string :=
  match extractOriginRegex lines with
  | (_, false) => inr "no origin regex found"
  | (origin, true) =>
      let cfg := corsScan lines origin in
      inl (if (length (AllowMethods cfg) =? 0)%nat
           then {| OriginRegex := OriginRegex cfg;
                   AllowHeaders := AllowHeaders cfg;
                   AllowMethods := defaultMethods;
                   AllowCreds := AllowCreds cfg;
                   MaxAge := MaxAge cfg |}
           else cfg)
  end.

Definition corsHeaders (cfg : corsConfig) : dynamic.Headers :=
  {| dynamic.CustomRequestHeaders := ∅;
     dynamic.CustomResponseHeaders := ∅;
     dynamic.AccessControlAllowCredentials :=
       match AllowCreds cfg with Some b => b | None => false end;
     dynamic.AccessControlAllowHeaders := AllowHeaders cfg;
     dynamic.AccessControlAllowMethods := AllowMethods cfg;
     dynamic.AccessControlAllowOriginListRegex := [OriginRegex cfg];
     dynamic.AccessControlMaxAge := MaxAge cfg |}.

Definition partialWarning : string :=
  "conditional CORS snippet was partially parsed; verify generated middleware".

Definition convertedWarning : string :=
  "conditional NGINX CORS logic was converted to Traefik CORS middleware".

Definition emitCORSMiddleware (ctx : Context) (cfg : corsConfig) : Context :=
  let headers := corsHeaders cfg in
  let ctx := appendMiddleware ctx (newHeadersMiddleware ctx "cors" headers) in
  let ctx :=
    if (length (AllowHeaders cfg) =? 0)%nat || (length (AllowMethods cfg) =? 0)%nat
    then appendWarnings ctx [partialWarning]
    else ctx in
  appendWarnings ctx [convertedWarning].

(** *** The converter *)

Definition snippetAnnotation : string :=
  "nginx.ingress.kubernetes.io/configuration-snippet".

Definition parseFailedWarning : string :=
  "failed to parse conditional CORS snippet; skipped".

Definition ConfigurationSnippet (ctx : Context) : Context :=
  match Annotations ctx !! snippetAnnotation with
  | None => ctx
  | Some snippet =>
      let lines := splitLines snippet in
      if (length lines =? 0)%nat then ctx
      else if isConditionalCORSSnippet lines then
        match parseConditionalCORSSnippet lines with
        | inr _ => appendWarnings ctx [parseFailedWarning]
        | inl cfg => emitCORSMiddleware ctx cfg
        end
      else convertGenericSnippet ctx lines
  end.

(** ** The other converters of the repository *)

(** Modelled from the spec: the annotation keys of package [models], which
    is outside the sources; each key is the string the doc comment of the
    converter that reads it lists for it. *)
Module models.
Definition SslRedirect : string := "nginx.ingress.kubernetes.io/ssl-redirect".
Definition ForceSslRedirect : string := "nginx.ingress.kubernetes.io/force-ssl-redirect".
Definition UpstreamVhost : string := "nginx.ingress.kubernetes.io/upstream-vhost".
Definition ProxyBuffering : string := "nginx.ingress.kubernetes.io/proxy-buffering".
Definition ServiceUpstream : string := "nginx.ingress.kubernetes.io/service-upstream".
Definition EnableOpentracing : string := "nginx.ingress.kubernetes.io/enable-opentracing".
Definition EnableOpentelemetry : string := "nginx.ingress.kubernetes.io/enable-opentelemetry".
Definition BackendProtocol : string := "nginx.ingress.kubernetes.io/backend-protocol".
Definition GrpcBackend : string := "nginx.ingress.kubernetes.io/grpc-backend".
End models.

Module errors.
Record ConverterError := { Message : string }.
End errors.

(** [m[key]] on a Go map of strings: the empty string for a missing key. *)
Definition mapIndex (m : gmap string string) (key : string) : string :=
  match m !! key with
  | Some v => v
  | None => ""
  end.

(** *** Package [ingressroute] *)

Definition resolveScheme (annotations : gmap string string)
  : string * option errors.ConverterError :=
  if String.eqb (mapIndex annotations models.GrpcBackend) "true" then ("h2c", None)
  else
    let p := strings.ToUpper (mapIndex annotations models.BackendProtocol) in
    if isOneOf p [""; "HTTP"] then ("http", None)
    else if isOneOf p ["HTTPS"] then ("https", None)
    else if isOneOf p ["GRPC"] then ("h2c", None)
    else if isOneOf p ["GRPCS"] then ("https", None)
    else ("", Some {| errors.Message := "unsupported backend-protocol" |}).

Definition entryPointsForScheme (scheme : string) : list string :=
  if String.eqb scheme "https" then ["websecure"]
  else if String.eqb scheme "h2c" then ["web"]
  else ["web"].

Definition NeedsIngressRoute (ann : gmap string string) : bool :=
  if String.eqb (mapIndex ann models.GrpcBackend) "true" then true
  else
    match ann !! models.BackendProtocol with
    | Some _ => true
    | None => false
    end.

(** *** Package [middleware]: the annotation converters *)

Definition SSLRedirect (ctx : Context) : Context :=
  let ssl := mapIndex (Annotations ctx) models.SslRedirect in
  let force := mapIndex (Annotations ctx) models.ForceSslRedirect in
  if negb (String.eqb ssl "true") && negb (String.eqb force "true") then ctx
  else
    appendMiddleware ctx
      {| traefik.TypeMeta :=
           {| metav1.APIVersion := traefik.SchemeGroupVersion;
              metav1.Kind := "Middleware" |};
         traefik.ObjectMeta :=
           {| metav1.Name := mwName ctx "https-redirect";
              metav1.Namespace := Namespace ctx |};
         traefik.Spec :=
           {| traefik.Headers := None;
              traefik.RedirectScheme :=
                Some {| dynamic.Scheme := "https"; dynamic.Permanent := true |} |} |}.

Definition warnWhen (cond : bool) (w : string) (ctx : Context) : Context :=
  if cond then appendWarnings ctx [w] else ctx.

Definition proxyBufferingWarning : string :=
  "proxy-buffering=off is default behavior in Traefik".
Definition serviceUpstreamWarning : string :=
  "service-upstream=true is default behavior in Traefik".
Definition opentracingWarning : string :=
  "enable-opentracing is global in Traefik and cannot be enabled per Ingress".
Definition opentelemetryWarning : string :=
  "enable-opentelemetry must be configured globally in Traefik static config"
  +:+ "tracing:" +:+ newline +:+ "  otlp:" +:+ newline +:+ "    grpc:" +:+ newline
  +:+ "      endpoint: otel-collector:4317".
Definition backendProtocolWarning : string :=
  "backend-protocol must be applied to IngressRoute service scheme, check for generated ingressroutes.yaml".
Definition grpcBackendWarning : string :=
  "grpc-backend requires IngressRoute service scheme h2c or https+h2, check for generated ingressroutes.yaml".

Definition ExtraAnnotations (ctx : Context) : Context :=
  let ann := Annotations ctx in
  let ctx := warnWhen (String.eqb (mapIndex ann models.ProxyBuffering) "off")
               proxyBufferingWarning ctx in
  let ctx := warnWhen (String.eqb (mapIndex ann models.ServiceUpstream) "true")
               serviceUpstreamWarning ctx in
  let ctx := warnWhen (String.eqb (mapIndex ann models.EnableOpentracing) "true")
               opentracingWarning ctx in
  let ctx := warnWhen (String.eqb (mapIndex ann models.EnableOpentelemetry) "true")
               opentelemetryWarning ctx in
  let ctx := warnWhen (nonEmpty (mapIndex ann models.BackendProtocol))
               backendProtocolWarning ctx in
  warnWhen (String.eqb (mapIndex ann models.GrpcBackend) "true")
    grpcBackendWarning ctx.

Definition vhostHeaders (val : string) : dynamic.Headers :=
  {| dynamic.CustomRequestHeaders := {[ "Host" := val ]};
     dynamic.CustomResponseHeaders := ∅;
     dynamic.AccessControlAllowCredentials := false;
     dynamic.AccessControlAllowHeaders := [];
     dynamic.AccessControlAllowMethods := [];
     dynamic.AccessControlAllowOriginListRegex := [];
     dynamic.AccessControlMaxAge := 0 |}.

Definition UpstreamVHost (ctx : Context) : Context :=
  match Annotations ctx !! models.UpstreamVhost with
  | None => ctx
  | Some val =>
      if negb (nonEmpty (strings.TrimSpace val)) then ctx
      else appendMiddleware ctx
             (newHeadersMiddleware ctx "upstream-vhost" (vhostHeaders val))
  end.

(** ** Vocabulary of the statements *)

(** The three signals the detector reads off one line. *)
Definition hasOriginGuard (raw : string) : bool :=
  strings.Contains (strings.ToLower raw) "if ($http_origin".

Definition hasAllowMethods (raw : string) : bool :=
  strings.Contains (strings.ToLower raw) "access-control-allow-methods".

Definition isDisqualifying (raw : string) : bool :=
  disqualifies (strings.ToLower raw).

(** [extends ctx ctx' mws ws]: [ctx'] is [ctx] with [mws] appended to the
    middlewares of the shared result and [ws] appended to its warnings;
    nothing else differs. *)
Definition extends (ctx ctx' : Context)
    (mws : list traefik.Middleware) (ws : list string) : Prop :=
  IngressName ctx' = IngressName ctx
  /\ Namespace ctx' = Namespace ctx
  /\ Annotations ctx' = Annotations ctx
  /\ Middlewares (Result ctx') = Middlewares (Result ctx) ++ mws
  /\ Warnings (Result ctx') = Warnings (Result ctx) ++ ws.

(** What [convertGenericSnippet] appends besides the warnings of the scan:
    one snippet-headers middleware unless both header maps are empty. *)
Definition genericMiddlewares (ctx : Context) (lines : list string)
  : list traefik.Middleware :=
  let st := genericScan lines in
  if bool_decide (size (reqHeaders st) = 0%nat)
     && bool_decide (size (respHeaders st) = 0%nat)
  then []
  else [newHeadersMiddleware ctx "snippet-headers" (snippetHeaders st)].

(** The warnings [emitCORSMiddleware] appends: the partially-parsed warning
    when a list is empty, then the closing note. *)
Definition corsWarnings (cfg : corsConfig) : list string :=
  (if (length (AllowHeaders cfg) =? 0)%nat || (length (AllowMethods cfg) =? 0)%nat
   then [partialWarning] else [])
  ++ [convertedWarning].

(** A result object nothing has been appended to yet. *)
Definition freshResult : ConversionResult :=
  {| Middlewares := []; Warnings := [] |}.

(** A context for one ingress that carries only the snippet annotation. *)
Definition snippetContext (snippet : string) (r : ConversionResult) : Context :=
  {| IngressName := "web"; Namespace := "default";
     Annotations := {[ snippetAnnotation := snippet ]};
     Result := r |}.

(** [s] between two double quotes, for writing snippet lines. *)
Definition inDoubleQuotes (s : string) : string := dquote +:+ s +:+ dquote.

Fixpoint hasByte (q : ascii) (s : string) : bool :=
  match s with
  | EmptyString => false
  | String c s' => Ascii.eqb c q || hasByte q s'
  end.

Definition isQuote (c : ascii) : bool :=
  Ascii.eqb c "034" || Ascii.eqb c "'".

(** The quoted-value rule as the specification words it: read the line from
    left to right, collect every substring enclosed by a pair of double
    quotes or by a pair of single quotes, and keep the last one.  [open] is
    the quote byte that opened the current segment together with the bytes
    read since, last one first. *)
Fixpoint quotedSegmentsOnLine (open : option (ascii * string)) (s : string)
  : list string :=
  match s with
  | EmptyString => []
  | String c s' =>
      match open with
      | None =>
          if isQuote c then quotedSegmentsOnLine (Some (c, EmptyString)) s'
          else quotedSegmentsOnLine None s'
      | Some (q, acc) =>
          if Ascii.eqb c q
          then String.rev acc :: quotedSegmentsOnLine None s'
          else quotedSegmentsOnLine (Some (q, String c acc)) s'
      end
  end.

Definition lastQuotedSegmentOnLine (line : string) : string :=
  match last (quotedSegmentsOnLine None line) with
  | None => ""
  | Some v => v
  end.

(** The lines the scan of [parseConditionalCORSSnippet] sends to its
    allow-methods case. *)
Definition isAllowMethodsLine (raw : string) : bool :=
  let lower := strings.ToLower (strings.TrimSpace raw) in
  negb (strings.Contains lower "access-control-allow-headers")
  && strings.Contains lower "access-control-allow-methods".

(** The lines the scan of [parseConditionalCORSSnippet] sends to its
    max-age case. *)
Definition isMaxAgeLine (raw : string) : bool :=
  let lower := strings.ToLower (strings.TrimSpace raw) in
  negb (strings.Contains lower "access-control-allow-headers")
  && negb (strings.Contains lower "access-control-allow-methods")
  && negb (strings.Contains lower "access-control-allow-credentials")
  && strings.Contains lower "access-control-max-age".

Definition setMaxAge (cfg : corsConfig) (age : Z) : corsConfig :=
  {| OriginRegex := OriginRegex cfg;
     AllowHeaders := AllowHeaders cfg;
     AllowMethods := AllowMethods cfg;
     AllowCreds := AllowCreds cfg;
     MaxAge := age |}.

Definition addWarning (st : genericState) (w : string) : genericState :=
  {| reqHeaders := reqHeaders st;
     respHeaders := respHeaders st;
     warnings := warnings st ++ [w] |}.

(** ** Vocabulary for the rest of the package *)

(** Every byte of [s] passes the test [P]. *)
Fixpoint allBytes (P : ascii -> bool) (s : string) : bool :=
  match s with
  | EmptyString => true
  | String c s' => P c && allBytes P s'
  end.

(** Only white space (or nothing). *)
Definition isBlank (s : string) : bool := allBytes strings.isSpace s.


(** The directive keyword the generic scan dispatches a line on. *)
Definition lineDirective (raw : string) : string :=
  directive (strings.ToLower (strings.TrimSpace raw)).





Definition originGuardLine (pattern : string) : string :=
  "if ($http_origin ~* (" +:+ pattern +:+ ")) {".


Definition unsupportedWarning (d : unsupportedDirective) : string :=
  if Enterprise d
  then Message d +:+ ". Traefik Enterprise provides an alternative, but it cannot be auto-converted."
  else Message d.

(** The warnings [ExtraAnnotations] can record, in the order of its tests. *)
Definition extraWarnings : list string :=
  [proxyBufferingWarning; serviceUpstreamWarning; opentracingWarning;
   opentelemetryWarning; backendProtocolWarning; grpcBackendWarning].

(** The four converters of package [middleware] among the sources. *)
Definition isConverter (c : Context -> Context) : Prop :=
  c = SSLRedirect \/ c = UpstreamVHost \/ c = ConfigurationSnippet
  \/ c = ExtraAnnotations.

(** Converters called one after the other on the same context. *)
Definition runConverters (cs : list (Context -> Context)) (ctx : Context) : Context :=
  fold_left (fun ctx c => c ctx) cs ctx.


(** What every middleware of this package looks like: a Traefik
    Middleware object in the namespace of the ingress, with exactly one
    payload. *)
Definition wellFormedMiddleware (ctx : Context) (mw : traefik.Middleware) : Prop :=
  metav1.APIVersion (traefik.TypeMeta mw) = traefik.SchemeGroupVersion
  /\ metav1.Kind (traefik.TypeMeta mw) = "Middleware"
  /\ metav1.Namespace (traefik.ObjectMeta mw) = Namespace ctx
  /\ (traefik.Headers (traefik.Spec mw) = None
      <-> traefik.RedirectScheme (traefik.Spec mw) <> None).

(** * Properties *)

(** ** The bounded loops reach their exit

    [quotedLoop] and [Split] count their rounds down from a bound above the
    length of the input; any such bound gives the same result. *)

Section LoopBounds.

Lemma indexFrom_lower i s substr :
  strings.indexFrom i s substr = -1 \/ i <= strings.indexFrom i s substr.
Proof.
  revert i. induction s as [|c s IH]; intros i.
  - cbn [strings.indexFrom].
    destruct (strings.HasPrefix "" substr); [right; lia | by left].
  - cbn [strings.indexFrom].
    destruct (strings.HasPrefix (String c s) substr); [right; lia |].
    destruct (IH (i + 1)) as [-> | H]; [by left | right; lia].
Qed.

Lemma Index_found_nonneg s substr :
  strings.Index s substr <> -1 -> 0 <= strings.Index s substr.
Proof.
  unfold strings.Index. by destruct (indexFrom_lower 0 s substr).
Qed.

Lemma Index_empty substr :
  substr <> "" -> strings.Index "" substr = -1.
Proof. by destruct substr. Qed.

Lemma length_substring_le n m s :
  (String.length (String.substring n m s) <= String.length s - n)%nat.
Proof.
  revert n m. induction s as [|c s IH]; intros [|n] [|m]; simpl; try lia.
  - specialize (IH 0%nat m). lia.
  - apply IH.
  - apply IH.
Qed.

Lemma length_sliceFrom s k :
  0 < k -> s <> "" ->
  (String.length (strings.sliceFrom s k) < String.length s)%nat.
Proof.
  intros Hk Hs. unfold strings.sliceFrom.
  pose proof (length_substring_le (Z.to_nat k)
                (String.length s - Z.to_nat k) s).
  destruct s; [done |]. simpl in *. lia.
Qed.

(** More fuel than the length of [tmp] never changes the result of the
    quote loop: the loop has reached its [break] by then. *)
Lemma quotedLoop_fuel n m quote tmp values :
  quote <> "" ->
  (String.length tmp < n)%nat -> (String.length tmp < m)%nat ->
  quotedLoop n quote tmp values = quotedLoop m quote tmp values.
Proof.
  intros Hq. revert m tmp values.
  induction n as [|n IH]; intros [|m] tmp values Hn Hm; try lia.
  simpl.
  destruct (Z.eqb_spec (strings.Index tmp quote) (-1)) as [|Hstart]; [done |].
  destruct (Z.eqb_spec
              (strings.Index (strings.sliceFrom tmp (strings.Index tmp quote + 1)) quote)
              (-1)) as [|Hend]; [done |].
  assert (Hne : tmp <> "").
  { intros ->. by rewrite Index_empty in Hstart. }
  apply Index_found_nonneg in Hstart, Hend.
  pose proof (length_sliceFrom tmp
      (strings.Index tmp quote + 1 +
       strings.Index (strings.sliceFrom tmp (strings.Index tmp quote + 1)) quote + 1)
      ltac:(lia) Hne).
  apply IH; lia.
Qed.

Lemma HasPrefix_nonempty s substr :
  substr <> "" -> strings.HasPrefix s substr = true -> s <> "".
Proof. intros Hs Hp ->. by destruct substr. Qed.

Lemma SplitN_fuel n m s sep :
  sep <> "" ->
  (String.length s < n)%nat -> (String.length s < m)%nat ->
  strings.SplitN s sep n = strings.SplitN s sep m.
Proof.
  intros Hsep. revert m s.
  induction n as [|n IH]; intros [|m] s Hn Hm; try lia.
  destruct (decide (s = "")) as [-> | Hs].
  { destruct n, m; simpl; rewrite ?Index_empty by done; reflexivity. }
  destruct n as [|n]; [destruct s; [done | simpl in *; lia] |].
  destruct m as [|m]; [destruct s; [done | simpl in *; lia] |].
  change (strings.SplitN s sep (S (S n))) with
    (let i := strings.Index s sep in
     if i <? 0 then [s]
     else strings.slice s 0 i
          :: strings.SplitN (strings.sliceFrom s (i + strings.len sep)) sep (S n)).
  change (strings.SplitN s sep (S (S m))) with
    (let i := strings.Index s sep in
     if i <? 0 then [s]
     else strings.slice s 0 i
          :: strings.SplitN (strings.sliceFrom s (i + strings.len sep)) sep (S m)).
  cbv zeta. destruct (Z.ltb_spec (strings.Index s sep) 0) as [|Hi]; [done |].
  f_equal.
  assert (0 < strings.Index s sep + strings.len sep).
  { unfold strings.len. destruct sep; [done |]. simpl. lia. }
  pose proof (length_sliceFrom s (strings.Index s sep + strings.len sep)
                ltac:(lia) Hs).
  apply IH; lia.
Qed.

(** [Split] with any bound above the length of [s]. *)
Lemma Split_fuel n s sep :
  sep <> "" -> (String.length s < n)%nat ->
  strings.Split s sep = strings.SplitN s sep n.
Proof.
  intros Hsep Hn. unfold strings.Split. apply SplitN_fuel; [done | lia | done].
Qed.

(** [extractQuotedHeaderValue] with any bound above the length of the line. *)
Lemma extractQuotedHeaderValue_fuel n line :
  (String.length line < n)%nat ->
  extractQuotedHeaderValue line =
    match last (quotedLoop n squote line (quotedLoop n dquote line [])) with
    | None => ""
    | Some v => v
    end.
Proof.
  intros Hn. unfold extractQuotedHeaderValue. cbn [fold_left].
  rewrite (quotedLoop_fuel (S (String.length line)) n dquote) by (done || lia).
  rewrite (quotedLoop_fuel (S (String.length line)) n squote) by (done || lia).
  reflexivity.
Qed.

End LoopBounds.


(** ** The scenarios of the specification, run on the model *)

Section Scenarios.

Example scenario_add_header :
  Result (ConfigurationSnippet (snippetContext ("add_header X-Test " +:+ inDoubleQuotes "1" +:+ ";") freshResult))
  = {| Middlewares :=
         [newHeadersMiddleware (snippetContext "" freshResult) "snippet-headers"
            {| dynamic.CustomRequestHeaders := ∅;
               dynamic.CustomResponseHeaders := {[ "X-Test" := "1" ]};
               dynamic.AccessControlAllowCredentials := false;
               dynamic.AccessControlAllowHeaders := [];
               dynamic.AccessControlAllowMethods := [];
               dynamic.AccessControlAllowOriginListRegex := [];
               dynamic.AccessControlMaxAge := 0 |}];
       Warnings := [] |}.
Proof. vm_compute. reflexivity. Qed.

Example scenario_proxy_set_header :
  Result (ConfigurationSnippet (snippetContext "proxy_set_header Host $host;" freshResult))
  = {| Middlewares :=
         [newHeadersMiddleware (snippetContext "" freshResult) "snippet-headers"
            {| dynamic.CustomRequestHeaders := {[ "Host" := "$host" ]};
               dynamic.CustomResponseHeaders := ∅;
               dynamic.AccessControlAllowCredentials := false;
               dynamic.AccessControlAllowHeaders := [];
               dynamic.AccessControlAllowMethods := [];
               dynamic.AccessControlAllowOriginListRegex := [];
               dynamic.AccessControlMaxAge := 0 |}];
       Warnings :=
         ["proxy_set_header uses NGINX variables which are not evaluated by Traefik"] |}.
Proof. vm_compute. reflexivity. Qed.

Example scenario_conditional_cors :
  Result (ConfigurationSnippet (snippetContext
    ("if ($http_origin ~* (https://example\.com)) {" +:+ newline
     +:+ "  add_header Access-Control-Allow-Methods " +:+ inDoubleQuotes "GET, POST"
     +:+ ";" +:+ newline
     +:+ "}") freshResult))
  = {| Middlewares :=
         [newHeadersMiddleware (snippetContext "" freshResult) "cors"
            {| dynamic.CustomRequestHeaders := ∅;
               dynamic.CustomResponseHeaders := ∅;
               dynamic.AccessControlAllowCredentials := false;
               dynamic.AccessControlAllowHeaders := [];
               dynamic.AccessControlAllowMethods := ["GET"; "POST"];
               dynamic.AccessControlAllowOriginListRegex := ["https://example\.com"];
               dynamic.AccessControlMaxAge := 0 |}];
       Warnings := [partialWarning; convertedWarning] |}.
Proof. vm_compute. reflexivity. Qed.

Example scenario_rewrite_disqualifies :
  isConditionalCORSSnippet
    ["if ($http_origin ~* (https://example\.com)) {";
     "add_header Access-Control-Allow-Methods " +:+ inDoubleQuotes "GET, POST" +:+ ";";
     "rewrite ^ /foo;"; "}"] = false.
Proof. vm_compute. reflexivity. Qed.

Example scenario_gzip :
  Result (ConfigurationSnippet (snippetContext "gzip on;" freshResult))
  = {| Middlewares := [];
       Warnings :=
         ["gzip is only configurable via middleware in Traefik and was ignored"] |}.
Proof. vm_compute. reflexivity. Qed.

Example scenario_blank :
  Result (ConfigurationSnippet (snippetContext ("   " +:+ newline +:+ " ") freshResult))
  = freshResult.
Proof. vm_compute. reflexivity. Qed.

End Scenarios.

(** ** The conditional-CORS detector *)

Section Detector.

(** The loop computes the conjunction of the three whole-snippet tests,
    whatever the flags were on entry. *)
Lemma conditionalCORSLoop_spec lines a b :
  conditionalCORSLoop lines a b =
    (a || existsb hasOriginGuard lines)
    && (b || existsb hasAllowMethods lines)
    && forallb (fun l => negb (isDisqualifying l)) lines.
Proof.
  revert a b. induction lines as [|raw rest IH]; intros a b; simpl.
  - by rewrite !orb_false_r, andb_true_r.
  - fold (hasOriginGuard raw) (hasAllowMethods raw).
    change (disqualifies (strings.ToLower raw)) with (isDisqualifying raw).
    destruct (isDisqualifying raw) eqn:Hd; simpl.
    + by rewrite andb_false_r.
    + rewrite IH.
      destruct (hasOriginGuard raw), (hasAllowMethods raw), a, b; reflexivity.
Qed.

Lemma isConditionalCORSSnippet_iff lines :
  isConditionalCORSSnippet lines = true <->
    (exists l, In l lines /\ hasOriginGuard l = true)
    /\ (exists l, In l lines /\ hasAllowMethods l = true)
    /\ (forall l, In l lines -> isDisqualifying l = false).
Proof.
  unfold isConditionalCORSSnippet. rewrite conditionalCORSLoop_spec. simpl.
  rewrite !andb_true_iff, !existsb_exists, forallb_forall.
  split.
  - intros [[Ho Hm] Hd]. repeat split; try done.
    intros l Hl. apply negb_true_iff. by apply Hd.
  - intros (Ho & Hm & Hd). repeat split; try done.
    intros l Hl. apply negb_true_iff. by apply Hd.
Qed.

Lemma isConditionalCORSSnippet_nonempty lines :
  isConditionalCORSSnippet lines = true -> lines <> [].
Proof. by intros H ->. Qed.



End Detector.

(** ** The shared result is only appended to *)

Section Frame.

Lemma extends_refl ctx : extends ctx ctx [] [].
Proof. unfold extends. by rewrite !app_nil_r. Qed.

Lemma extends_appendWarnings ctx ctx' mws ws ws' :
  extends ctx ctx' mws ws ->
  extends ctx (appendWarnings ctx' ws') mws (ws ++ ws').
Proof.
  intros (Hi & Hn & Ha & Hm & Hw). unfold extends; simpl.
  by rewrite Hw, app_assoc.
Qed.

Lemma extends_appendMiddleware ctx ctx' mws ws mw :
  extends ctx ctx' mws ws ->
  extends ctx (appendMiddleware ctx' mw) (mws ++ [mw]) ws.
Proof.
  intros (Hi & Hn & Ha & Hm & Hw). unfold extends; simpl.
  by rewrite Hm, app_assoc.
Qed.

(** The middleware built for a context depends on its naming fields only. *)
Lemma newHeadersMiddleware_naming ctx ctx' name h :
  IngressName ctx' = IngressName ctx ->
  Namespace ctx' = Namespace ctx ->
  newHeadersMiddleware ctx' name h = newHeadersMiddleware ctx name h.
Proof.
  intros Hi Hn. unfold newHeadersMiddleware, mwName. by rewrite Hi, Hn.
Qed.

Lemma convertGenericSnippet_extends ctx lines :
  extends ctx (convertGenericSnippet ctx lines)
    (genericMiddlewares ctx lines) (warnings (genericScan lines)).
Proof.
  unfold convertGenericSnippet, genericMiddlewares.
  pose proof (extends_appendWarnings ctx ctx [] [] (warnings (genericScan lines))
                (extends_refl ctx)) as Hw.
  simpl in Hw.
  destruct (bool_decide (size (reqHeaders (genericScan lines)) = 0%nat)
            && bool_decide (size (respHeaders (genericScan lines)) = 0%nat)).
  - exact Hw.
  - apply (extends_appendMiddleware ctx _ [] _ _ Hw).
Qed.

Lemma emitCORSMiddleware_extends ctx cfg :
  extends ctx (emitCORSMiddleware ctx cfg)
    [newHeadersMiddleware ctx "cors" (corsHeaders cfg)] (corsWarnings cfg).
Proof.
  unfold emitCORSMiddleware, corsWarnings.
  pose proof (extends_appendMiddleware ctx ctx [] []
                (newHeadersMiddleware ctx "cors" (corsHeaders cfg))
                (extends_refl ctx)) as Hm.
  simpl in Hm.
  destruct ((length (AllowHeaders cfg) =? 0)%nat
            || (length (AllowMethods cfg) =? 0)%nat).
  - apply (extends_appendWarnings ctx _ _ [partialWarning] [convertedWarning]).
    apply (extends_appendWarnings ctx _ _ [] [partialWarning] Hm).
  - apply (extends_appendWarnings ctx _ _ [] [convertedWarning] Hm).
Qed.

(** The three outcomes of one call, by the path taken. *)
Lemma ConfigurationSnippet_outcomes ctx :
  exists mws ws,
    extends ctx (ConfigurationSnippet ctx) mws ws
    /\ (mws = []
        \/ (exists st, mws = [newHeadersMiddleware ctx "snippet-headers" (snippetHeaders st)])
        \/ (exists cfg, mws = [newHeadersMiddleware ctx "cors" (corsHeaders cfg)])).
Proof.
  unfold ConfigurationSnippet.
  destruct (Annotations ctx !! snippetAnnotation) as [snippet|];
    [| exists [], []; split; [apply extends_refl | by left]].
  destruct (length (splitLines snippet) =? 0)%nat;
    [exists [], []; split; [apply extends_refl | by left] |].
  destruct (isConditionalCORSSnippet (splitLines snippet)).
  - destruct (parseConditionalCORSSnippet (splitLines snippet)) as [cfg|err].
    + eexists _, _. split; [apply emitCORSMiddleware_extends |].
      right; right. by exists cfg.
    + exists [], [parseFailedWarning]. split; [| by left].
      apply (extends_appendWarnings ctx ctx [] [] _ (extends_refl ctx)).
  - eexists _, _. split; [apply convertGenericSnippet_extends |].
    unfold genericMiddlewares.
    destruct (_ && _); [by left | right; left; by eexists].
Qed.

(** C2: one call appends at most one middleware to the shared result; when
    it appends one, it is either the snippet-headers middleware or the cors
    middleware, never both. *)
Theorem ConfigurationSnippet_at_most_one_middleware (ctx : Context) :
  exists mws : list traefik.Middleware,
    Middlewares (Result (ConfigurationSnippet ctx))
      = Middlewares (Result ctx) ++ mws
    /\ (length mws <= 1)%nat
    /\ (mws = []
        \/ (exists h, mws = [newHeadersMiddleware ctx "snippet-headers" h])
        \/ (exists h, mws = [newHeadersMiddleware ctx "cors" h])).
Proof.
  destruct (ConfigurationSnippet_outcomes ctx)
    as (mws & ws & (_ & _ & _ & Hm & _) & Hcases).
  exists mws. split; [exact Hm |].
  destruct Hcases as [-> | [[st ->] | [cfg ->]]]; simpl.
  - split; [lia | by left].
  - split; [lia | right; left; by eexists].
  - split; [lia | right; right; by eexists].
Qed.

(** C9: for every context, whatever the shared result holds before the
    call, the call only appends to its middleware and warning sequences:
    every middleware and every warning that was there is still there at the
    same index afterwards, and the naming fields and the annotations of the
    context are unchanged. *)
Theorem ConfigurationSnippet_only_appends (ctx : Context) :
  (exists (mws : list traefik.Middleware) (ws : list string),
     Middlewares (Result (ConfigurationSnippet ctx))
       = Middlewares (Result ctx) ++ mws
     /\ Warnings (Result (ConfigurationSnippet ctx))
       = Warnings (Result ctx) ++ ws)
  /\ (forall (i : nat) (mw : traefik.Middleware),
        Middlewares (Result ctx) !! i = Some mw ->
        Middlewares (Result (ConfigurationSnippet ctx)) !! i = Some mw)
  /\ (forall (i : nat) (w : string),
        Warnings (Result ctx) !! i = Some w ->
        Warnings (Result (ConfigurationSnippet ctx)) !! i = Some w)
  /\ IngressName (ConfigurationSnippet ctx) = IngressName ctx
  /\ Namespace (ConfigurationSnippet ctx) = Namespace ctx
  /\ Annotations (ConfigurationSnippet ctx) = Annotations ctx.
Proof.
  destruct (ConfigurationSnippet_outcomes ctx)
    as (mws & ws & (Hi & Hn & Ha & Hm & Hw) & _).
  split; [by exists mws, ws |].
  split; [intros i mw Hl; rewrite Hm; by apply lookup_app_l_Some |].
  split; [intros i w Hl; rewrite Hw; by apply lookup_app_l_Some |].
  done.
Qed.

End Frame.

(** ** The CORS path *)

Section CORS.

Lemma extractOriginRegex_none lines :
  (forall l, In l lines -> originIfRe.FindStringSubmatch l = None) ->
  extractOriginRegex lines = ("", false).
Proof.
  induction lines as [|l rest IH]; intros H; simpl; [done |].
  rewrite (H l (or_introl eq_refl)). apply IH.
  intros l' Hl'. apply H. by right.
Qed.

Lemma extractOriginRegex_found lines origin :
  extractOriginRegex lines = (origin, true) ->
  exists l, In l lines /\ originIfRe.FindStringSubmatch l = Some origin.
Proof.
  induction lines as [|l rest IH]; simpl; [done |].
  destruct (originIfRe.FindStringSubmatch l) as [m1|] eqn:Hm.
  - intros [= <-]. exists l. by split; [left |].
  - intros H. destruct (IH H) as (l' & Hin & Hl'). exists l'. by split; [right |].
Qed.

(** C3: when the snippet passes the detector but no line matches
    [originIfRe], the call appends the single warning
    "failed to parse conditional CORS snippet; skipped" and nothing else:
    no middleware, no other warning, no other change to the context.  The
    call returns this context; no error reaches the caller. *)
Theorem ConfigurationSnippet_origin_regex_missing (ctx : Context) (snippet : string) :
  Annotations ctx !! snippetAnnotation = Some snippet ->
  isConditionalCORSSnippet (splitLines snippet) = true ->
  (forall l, In l (splitLines snippet) ->
             originIfRe.FindStringSubmatch l = None) ->
  Warnings (Result (ConfigurationSnippet ctx))
    = Warnings (Result ctx) ++ ["failed to parse conditional CORS snippet; skipped"]
  /\ Middlewares (Result (ConfigurationSnippet ctx)) = Middlewares (Result ctx)
  /\ IngressName (ConfigurationSnippet ctx) = IngressName ctx
  /\ Namespace (ConfigurationSnippet ctx) = Namespace ctx
  /\ Annotations (ConfigurationSnippet ctx) = Annotations ctx.
Proof.
  intros Ha Hdet Hre. unfold ConfigurationSnippet. rewrite Ha.
  pose proof (isConditionalCORSSnippet_nonempty _ Hdet) as Hne.
  destruct (splitLines snippet) as [|l0 rest] eqn:Hlines; [done |].
  change (length (l0 :: rest) =? 0)%nat with false. cbv iota.
  rewrite Hdet. unfold parseConditionalCORSSnippet.
  rewrite (extractOriginRegex_none _ Hre). done.
Qed.

Lemma ConfigurationSnippet_origin_regex_missing_witness :
  let snippet :=
    "IF ($HTTP_ORIGIN ~* (https://example\.com)) {" +:+ newline
    +:+ "  add_header Access-Control-Allow-Methods 'GET, POST';" +:+ newline
    +:+ "}" in
  let ctx :=
    {| IngressName := "web"; Namespace := "default";
       Annotations := {[ snippetAnnotation := snippet ]};
       Result := {| Middlewares := []; Warnings := ["earlier warning"] |} |} in
  Warnings (Result (ConfigurationSnippet ctx))
    = ["earlier warning"; "failed to parse conditional CORS snippet; skipped"]
  /\ Middlewares (Result (ConfigurationSnippet ctx)) = [].
Proof.
  intros snippet ctx.
  assert (Hlines : splitLines snippet =
            ["IF ($HTTP_ORIGIN ~* (https://example\.com)) {";
             "add_header Access-Control-Allow-Methods 'GET, POST';";
             "}"]) by (vm_compute; reflexivity).
  destruct (ConfigurationSnippet_origin_regex_missing ctx snippet)
    as (Hw & Hm & _).
  - vm_compute; reflexivity.
  - vm_compute; reflexivity.
  - rewrite Hlines. intros l [<- | [<- | [<- | []]]]; vm_compute; reflexivity.
  - split; [exact Hw | exact Hm].
Defined.


(** The scan leaves the allow-methods list empty when no line sent to the
    allow-methods case carries a value. *)
Lemma corsScan_no_methods_value lines origin :
  (forall l, In l lines -> isAllowMethodsLine l = true ->
             splitCSV (extractQuotedHeaderValue (strings.TrimSpace l)) = []) ->
  AllowMethods (corsScan lines origin) = [].
Proof.
  unfold corsScan.
  assert (Hgen : forall cfg,
            AllowMethods cfg = [] ->
            (forall l, In l lines -> isAllowMethodsLine l = true ->
               splitCSV (extractQuotedHeaderValue (strings.TrimSpace l)) = []) ->
            AllowMethods (fold_left corsStep lines cfg) = []).
  { induction lines as [|l rest IH]; intros cfg Hcfg Hl; [done |].
    simpl. apply IH.
    - pose proof (Hl l (or_introl eq_refl)) as Hv.
      unfold isAllowMethodsLine in Hv. unfold corsStep. cbv zeta in *.
      destruct (strings.Contains _ "access-control-allow-headers"); [done |].
      destruct (strings.Contains _ "access-control-allow-methods");
        [by apply Hv |].
      destruct (strings.Contains _ "access-control-allow-credentials").
      { by destruct (_ || _). }
      destruct (strings.Contains _ "access-control-max-age"); [| done].
      by destruct (0 <? _).
    - intros l' Hin. apply Hl. by right. }
  intros H. by apply Hgen.
Qed.





End CORS.

(** ** The output is a function of the snippet and the naming context

    The package-level table [unsupported] and pattern [originIfRe] are only
    read; nothing survives from one call to the next. *)

Section Determinism.



End Determinism.

(** ** Value extraction on the CORS path *)

Section QuotedValue.

Lemma HasPrefix_byte q s :
  strings.HasPrefix s (String q EmptyString) =
    match s with
    | EmptyString => false
    | String c _ => Ascii.eqb c q
    end.
Proof.
  destruct s as [|c s]; [done |].
  unfold strings.HasPrefix. simpl.
  destruct (ascii_dec q c) as [<- | Hne].
  - rewrite Ascii.eqb_refl. by destruct s.
  - symmetry. apply Ascii.eqb_neq. congruence.
Qed.

(** Where [Index] finds a single byte. *)
Lemma indexFrom_byte i q s :
  (strings.indexFrom i s (String q EmptyString) = -1 /\ hasByte q s = false)
  \/ exists pre rest,
       s = pre +:+ String q rest
       /\ hasByte q pre = false
       /\ strings.indexFrom i s (String q EmptyString) = i + strings.len pre.
Proof.
  revert i. induction s as [|c s IH]; intros i.
  - left. by split.
  - cbn [strings.indexFrom hasByte]. rewrite HasPrefix_byte.
    destruct (Ascii.eqb c q) eqn:Hc.
    + right. exists "", s. apply Ascii.eqb_eq in Hc as ->.
      repeat split. unfold strings.len. simpl. lia.
    + destruct (IH (i + 1)) as [[Hi Hb] | (pre & rest & -> & Hb & Hi)].
      * left. by split.
      * right. exists (String c pre), rest. repeat split.
        -- simpl. by rewrite Hc.
        -- rewrite Hi. unfold strings.len. simpl. lia.
Qed.

Lemma Index_byte q s :
  (strings.Index s (String q EmptyString) = -1 /\ hasByte q s = false)
  \/ exists pre rest,
       s = pre +:+ String q rest
       /\ hasByte q pre = false
       /\ strings.Index s (String q EmptyString) = strings.len pre.
Proof. apply (indexFrom_byte 0). Qed.

Lemma length_append s t :
  String.length (s +:+ t) = (String.length s + String.length t)%nat.
Proof. induction s; simpl; [done | by f_equal]. Qed.

Lemma append_assoc' s c t u :
  (s +:+ String c t) +:+ u = s +:+ String c (t +:+ u).
Proof.
  induction s as [|d s IH]; [done |].
  change (String d ((s +:+ String c t) +:+ u) = String d (s +:+ String c (t +:+ u))).
  by rewrite IH.
Qed.

Lemma append_empty s : s +:+ "" = s.
Proof.
  induction s as [|c s IH]; [done |].
  change (String c (s +:+ "") = String c s). by rewrite IH.
Qed.

Lemma substring_all s : String.substring 0 (String.length s) s = s.
Proof. induction s; simpl; [done | by f_equal]. Qed.

Lemma substring_append_skip pre n m s :
  String.substring (String.length pre + n) m (pre +:+ s) = String.substring n m s.
Proof. induction pre; simpl; [done | done]. Qed.

Lemma substring_append_take s t :
  String.substring 0 (String.length s) (s +:+ t) = s.
Proof.
  induction s as [|c s IH]; simpl; [by destruct t | by f_equal].
Qed.

Lemma sliceFrom_after pre q rest :
  strings.sliceFrom (pre +:+ String q rest) (strings.len pre + 1) = rest.
Proof.
  unfold strings.sliceFrom, strings.len.
  replace (Z.to_nat (Z.of_nat (String.length pre) + 1))
    with (String.length pre + 1)%nat by lia.
  rewrite substring_append_skip, length_append. simpl.
  replace (String.length pre + S (String.length rest) - (String.length pre + 1))%nat
    with (String.length rest) by lia.
  apply substring_all.
Qed.


Lemma hasByte_append q s t :
  hasByte q (s +:+ t) = hasByte q s || hasByte q t.
Proof.
  induction s as [|c s IH]; simpl; [done |]. by rewrite IH, orb_assoc.
Qed.

Lemma rev_app_rev_app s t u :
  String.rev_app (String.rev_app s t) u = String.rev_app t (s +:+ u).
Proof.
  revert t u. induction s as [|c s IH]; intros t u; simpl; [done |].
  by rewrite IH.
Qed.








(** C5 fails on the code when a line mixes the two quote styles: the code
    collects all double-quoted segments first and all single-quoted segments
    after them, so on this line it returns the single-quoted header name
    although the double-quoted value is the last quoted segment on the line;
    the scan then stores the header name as the only allowed method. *)
Theorem extractQuotedHeaderValue_mixed_quotes :
  let line :=
    "add_header 'Access-Control-Allow-Methods' " +:+ inDoubleQuotes "GET, POST" +:+ ";" in
  lastQuotedSegmentOnLine line = "GET, POST"
  /\ extractQuotedHeaderValue line = "Access-Control-Allow-Methods"
  /\ AllowMethods
       (corsScan ["if ($http_origin ~* (https://example\.com)) {"; line; "}"]
                 "https://example\.com")
     = ["Access-Control-Allow-Methods"].
Proof. vm_compute. repeat split. Qed.

(** With the quote styles the other way round the two agree. *)
Example extractQuotedHeaderValue_name_double_value_single :
  let line :=
    "add_header " +:+ inDoubleQuotes "Access-Control-Allow-Methods" +:+ " 'GET, POST';" in
  extractQuotedHeaderValue line = "GET, POST"
  /\ lastQuotedSegmentOnLine line = "GET, POST".
Proof. vm_compute. split; reflexivity. Qed.

Example extractQuotedHeaderValue_unquoted :
  extractQuotedHeaderValue "add_header Access-Control-Max-Age 3600;" = "".
Proof. vm_compute. reflexivity. Qed.

End QuotedValue.

Section MaxAge.

(** On a max-age line the scan stores whatever [extractInt] returns when it
    is positive, and otherwise leaves the configuration alone. *)
Lemma corsStep_max_age cfg raw :
  isMaxAgeLine raw = true ->
  corsStep cfg raw =
    if 0 <? extractInt (strings.TrimSpace raw)
    then setMaxAge cfg (extractInt (strings.TrimSpace raw))
    else cfg.
Proof.
  unfold isMaxAgeLine, corsStep. cbv zeta.
  rewrite !andb_true_iff, !negb_true_iff.
  intros [[[-> ->] ->] ->]. reflexivity.
Qed.

(** [extractInt] keeps the number [ParseInt] returns and drops its error:
    0 after a syntax error, but the clamped bound after a range error. *)
Lemma extractInt_last_field line f :
  last (strings.Fields line) = Some f ->
  extractInt line =
    match strconv.ParseInt10 (strings.TrimSuffix f ";") with
    | (n, None) => n
    | (_, Some strconv.ErrSyntax) => 0
    | (n, Some strconv.ErrRange) => n
    end.
Proof.
  intros Hf. unfold extractInt. rewrite Hf.
  destruct (strconv.ParseInt10 (strings.TrimSuffix f ";")) as [n [[|]|]] eqn:Hp;
    simpl; try reflexivity.
  (* a syntax error always comes with 0 *)
  revert Hp. unfold strconv.ParseInt10.
  destruct (strings.TrimSuffix f ";") as [|c s']; [by intros [= <-] |].
  destruct (if Ascii.eqb c "+" then _ else _) as [neg digits].
  destruct (strconv.ParseUint10 digits) as [un [[|]|]].
  - by intros [= <-].
  - destruct (negb neg && _); [done |]. by destruct (neg && _).
  - destruct (negb neg && _); [done |]. by destruct (neg && _).
Qed.

(** C7 fails on the code for a token too large for 64 bits: the parse does
    not succeed (it reports a range error), yet the field does not stay
    unset; it becomes the largest 64-bit integer, because [extractInt]
    discards the error and keeps the clamped value. *)
Theorem max_age_out_of_range :
  let line := "add_header Access-Control-Max-Age 99999999999999999999;" in
  isMaxAgeLine line = true
  /\ strconv.ParseInt10 "99999999999999999999"
       = (9223372036854775807, Some strconv.ErrRange)
  /\ extractInt line = 9223372036854775807
  /\ MaxAge
       (corsScan ["if ($http_origin ~* (https://example\.com)) {";
                  "add_header Access-Control-Allow-Methods 'GET';";
                  line; "}"]
                 "https://example\.com")
     = 9223372036854775807.
Proof. vm_compute. repeat split. Qed.

Example max_age_plain :
  MaxAge (corsStep (corsScan [] "o") "add_header 'Access-Control-Max-Age' 1728000;")
  = 1728000.
Proof. vm_compute. reflexivity. Qed.

Example max_age_not_a_number :
  MaxAge (corsStep (corsScan [] "o") "add_header 'Access-Control-Max-Age' 1728000 always;")
  = 0.
Proof. vm_compute. reflexivity. Qed.

Example max_age_negative :
  MaxAge (corsStep (corsScan [] "o") "add_header 'Access-Control-Max-Age' -1;")
  = 0.
Proof. vm_compute. reflexivity. Qed.

End MaxAge.

(** ** Malformed header directives on the generic path *)

Section Malformed.

(** A response-header line that [parseResponseHeader] rejects adds no
    entry and one warning naming the line; the loop goes on from there. *)
Lemma genericStep_response_header_rejected st raw k v :
  let line := strings.TrimSpace raw in
  isOneOf (directive (strings.ToLower line)) ["add_header"; "more_set_headers"] = true ->
  parseResponseHeader line = (k, v, false) ->
  genericStep st raw
    = addWarning st ("failed to parse header directive: " +:+ line).
Proof.
  intros line Hd Hp. unfold genericStep. fold line.
  assert (Hne : nonEmpty line = true) by (destruct line; done).
  rewrite Hne, Hd, Hp. reflexivity.
Qed.

(** A [proxy_set_header] line with fewer than three fields changes nothing:
    no entry, and no warning either. *)
Lemma genericStep_proxy_set_header_short st raw :
  let line := strings.TrimSpace raw in
  directive (strings.ToLower line) = "proxy_set_header" ->
  (length (strings.Fields (strings.TrimSuffix line ";")) < 3)%nat ->
  genericStep st raw = st.
Proof.
  intros line Hd Hlen. unfold genericStep. fold line.
  assert (Hne : nonEmpty line = true) by (destruct line; done).
  rewrite Hne, Hd. simpl. unfold parseProxySetHeader.
  apply Nat.ltb_lt in Hlen. rewrite Hlen. simpl. by destruct st.
Qed.

(** C6 fails on the code for [proxy_set_header]: a line with fewer than
    three fields adds no header entry but records no warning either, while
    the same defect on an [add_header] or [more_set_headers] line records
    "failed to parse header directive: ..." for it.  In all three cases the
    scan goes on to the following line. *)
Theorem proxy_set_header_malformed_no_warning :
  Result (ConfigurationSnippet (snippetContext "proxy_set_header Host;" freshResult))
    = freshResult
  /\ Warnings (Result (ConfigurationSnippet
        (snippetContext "add_header X-Test;" freshResult)))
       = ["failed to parse header directive: add_header X-Test;"]
  /\ Warnings (Result (ConfigurationSnippet
        (snippetContext "more_set_headers X-Test;" freshResult)))
       = ["failed to parse header directive: more_set_headers X-Test;"]
  /\ Warnings (Result (ConfigurationSnippet
        (snippetContext ("proxy_set_header Host;" +:+ newline +:+ "gzip on;")
           freshResult)))
       = ["gzip is only configurable via middleware in Traefik and was ignored"].
Proof. vm_compute. repeat split. Qed.

End Malformed.

(** * Further properties of the package *)

Section Trimming.

Lemma TrimLeftFunc_head f s :
  match strings.TrimLeftFunc f s with
  | EmptyString => True
  | String c _ => f c = false
  end.
Proof.
  induction s as [|c s IH]; simpl; [done |].
  destruct (f c) eqn:Hc; [exact IH | exact Hc].
Qed.

Lemma TrimRightFunc_head f c s :
  f c = false ->
  exists t, strings.TrimRightFunc f (String c s) = String c t.
Proof.
  intros Hc. simpl. destruct (strings.TrimRightFunc f s); rewrite ?Hc; eauto.
Qed.

Lemma TrimRightFunc_idemp f s :
  strings.TrimRightFunc f (strings.TrimRightFunc f s) = strings.TrimRightFunc f s.
Proof.
  induction s as [|c s IH]; simpl; [done |].
  destruct (strings.TrimRightFunc f s) as [|d t] eqn:Ht.
  - destruct (f c) eqn:Hc; simpl; [done | by rewrite Hc].
  - remember (String d t) as u. simpl. rewrite IH. by subst u.
Qed.

Lemma TrimLeftFunc_id f s :
  match s with EmptyString => True | String c _ => f c = false end ->
  strings.TrimLeftFunc f s = s.
Proof. destruct s as [|c s]; simpl; [done |]. by intros ->. Qed.

(** What [TrimSpace] returns needs no further trimming. *)
Lemma TrimSpace_idemp s :
  strings.TrimSpace (strings.TrimSpace s) = strings.TrimSpace s.
Proof.
  unfold strings.TrimSpace.
  pose proof (TrimLeftFunc_head strings.isSpace s) as Hh.
  destruct (strings.TrimLeftFunc strings.isSpace s) as [|c t] eqn:Hl; [done |].
  destruct (TrimRightFunc_head strings.isSpace c t Hh) as [u Hu].
  rewrite Hu. rewrite TrimLeftFunc_id by done.
  rewrite <- Hu. apply TrimRightFunc_idemp.
Qed.

Lemma TrimRightFunc_blank s :
  isBlank s = true -> strings.TrimRightFunc strings.isSpace s = "".
Proof.
  induction s as [|c s IH]; simpl; [done |].
  intros [Hc Hs]%andb_true_iff. by rewrite IH, Hc.
Qed.

Lemma TrimLeftFunc_blank s :
  isBlank s = true -> strings.TrimLeftFunc strings.isSpace s = "".
Proof.
  induction s as [|c s IH]; simpl; [done |].
  intros [Hc Hs]%andb_true_iff. rewrite Hc. by apply IH.
Qed.

Lemma TrimSpace_blank s :
  isBlank s = true -> strings.TrimSpace s = "".
Proof.
  intros H. unfold strings.TrimSpace. by rewrite TrimLeftFunc_blank.
Qed.

Lemma TrimRightFunc_hasByte f q s :
  hasByte q s = false -> hasByte q (strings.TrimRightFunc f s) = false.
Proof.
  induction s as [|c s IH]; simpl; [done |].
  intros [Hc Hs]%orb_false_elim. specialize (IH Hs).
  destruct (strings.TrimRightFunc f s) as [|d t].
  - destruct (f c); simpl; [done | by rewrite Hc].
  - remember (String d t) as u. simpl. by rewrite Hc, IH.
Qed.

Lemma TrimLeftFunc_hasByte f q s :
  hasByte q s = false -> hasByte q (strings.TrimLeftFunc f s) = false.
Proof.
  induction s as [|c s IH]; simpl; [done |].
  intros H. destruct (f c); [| done].
  apply IH. by apply orb_false_elim in H as [_ H].
Qed.

Lemma TrimSpace_hasByte q s :
  hasByte q s = false -> hasByte q (strings.TrimSpace s) = false.
Proof.
  intros H. by apply TrimRightFunc_hasByte, TrimLeftFunc_hasByte.
Qed.

End Trimming.

Section Splitting.

Lemma allBytes_append P s t :
  allBytes P (s +:+ t) = allBytes P s && allBytes P t.
Proof.
  induction s as [|c s IH]; [done |].
  change (allBytes P (String c (s +:+ t)) = allBytes P (String c s) && allBytes P t).
  simpl. by rewrite IH, andb_assoc.
Qed.

Lemma slice_before pre t :
  strings.slice (pre +:+ t) 0 (strings.len pre) = pre.
Proof.
  unfold strings.slice, strings.len.
  replace (Z.to_nat (Z.of_nat (String.length pre) - 0)) with (String.length pre) by lia.
  apply substring_append_take.
Qed.

(** One round of [SplitN] on a one-byte separator. *)
Lemma SplitN_byte_step q s n :
  strings.SplitN s (String q EmptyString) (S (S n)) =
    match strings.Index s (String q EmptyString) <? 0 with
    | true => [s]
    | false =>
        strings.slice s 0 (strings.Index s (String q EmptyString))
        :: strings.SplitN
             (strings.sliceFrom s (strings.Index s (String q EmptyString) + 1))
             (String q EmptyString) (S n)
    end.
Proof. reflexivity. Qed.

(** The pieces of a split on one byte, by the first occurrence of it. *)
Lemma Split_byte_absent q s :
  hasByte q s = false -> strings.Split s (String q EmptyString) = [s].
Proof.
  intros Hq. unfold strings.Split.
  destruct s as [|c s]; [done |].
  cbn [String.length]. rewrite SplitN_byte_step.
  destruct (Index_byte q (String c s)) as [[-> _] | (pre & rest & Hs & _ & _)]; [done |].
  rewrite Hs, hasByte_append in Hq. simpl in Hq.
  rewrite Ascii.eqb_refl, orb_true_r in Hq. done.
Qed.

Lemma Index_byte_at q pre rest :
  hasByte q pre = false ->
  strings.Index (pre +:+ String q rest) (String q EmptyString) = strings.len pre.
Proof.
  intros Hpre. unfold strings.Index.
  assert (Hgen : forall i,
            strings.indexFrom i (pre +:+ String q rest) (String q EmptyString)
            = i + strings.len pre).
  { induction pre as [|c pre IH]; intros i.
    - change ("" +:+ String q rest) with (String q rest).
      cbn [strings.indexFrom]. rewrite HasPrefix_byte, Ascii.eqb_refl.
      unfold strings.len. simpl. lia.
    - change (String c pre +:+ String q rest) with (String c (pre +:+ String q rest)).
      cbn [strings.indexFrom]. rewrite HasPrefix_byte.
      simpl in Hpre. apply orb_false_elim in Hpre as [Hc Hpre].
      rewrite Hc, IH by done. unfold strings.len. simpl. lia. }
  by rewrite Hgen.
Qed.

Lemma Split_byte_cons q pre rest :
  hasByte q pre = false ->
  strings.Split (pre +:+ String q rest) (String q EmptyString)
    = pre :: strings.Split rest (String q EmptyString).
Proof.
  intros Hpre. unfold strings.Split.
  rewrite length_append. simpl String.length.
  replace (S (String.length pre + S (String.length rest)))
    with (S (S (String.length pre + String.length rest))) by lia.
  rewrite SplitN_byte_step, Index_byte_at by done.
  assert (Hlt : (strings.len pre <? 0) = false).
  { apply Z.ltb_ge. unfold strings.len. lia. }
  rewrite Hlt, slice_before, sliceFrom_after. f_equal.
  apply SplitN_fuel; [done | lia | lia].
Qed.

(** Every way a string can be cut at a byte: induction principle for the
    proofs about [Split]. *)
Lemma Split_byte_ind q (P : string -> list string -> Prop) :
  (forall s, hasByte q s = false -> P s [s]) ->
  (forall pre rest pieces,
     hasByte q pre = false -> P rest pieces ->
     P (pre +:+ String q rest) (pre :: pieces)) ->
  forall s, P s (strings.Split s (String q EmptyString)).
Proof.
  intros Hbase Hstep s.
  remember (String.length s) as n eqn:Hn.
  revert s Hn. induction n as [n IH] using lt_wf_ind. intros s Hn.
  destruct (Index_byte q s) as [[_ Hq] | (pre & rest & -> & Hpre & _)].
  - rewrite Split_byte_absent by done. by apply Hbase.
  - rewrite Split_byte_cons by done. apply Hstep; [done |].
    apply (IH (String.length rest)); [| done].
    rewrite Hn, length_append. simpl. lia.
Qed.

Lemma Split_pieces_hasByte q s :
  Forall (fun p => hasByte q p = false) (strings.Split s (String q EmptyString)).
Proof.
  apply (Split_byte_ind q (fun _ pieces => Forall (fun p => hasByte q p = false) pieces)).
  - intros s' H. by constructor.
  - intros pre rest pieces Hpre IH. by constructor.
Qed.

Lemma Split_pieces_allBytes P q s :
  allBytes P s = true ->
  Forall (fun p => allBytes P p = true) (strings.Split s (String q EmptyString)).
Proof.
  revert s.
  apply (Split_byte_ind q
    (fun s pieces => allBytes P s = true -> Forall (fun p => allBytes P p = true) pieces)).
  - intros s' _ H. by constructor.
  - intros pre rest pieces Hpre IH H.
    rewrite allBytes_append in H. apply andb_true_iff in H as [H1 H2].
    simpl in H2. apply andb_true_iff in H2 as [_ H2].
    constructor; [done | by apply IH].
Qed.

(** Splitting and joining again gives the string back. *)
Lemma Join_Split_byte q s :
  strings.Join (strings.Split s (String q EmptyString)) (String q EmptyString) = s.
Proof.
  enough (strings.Split s (String q EmptyString) <> []
          /\ strings.Join (strings.Split s (String q EmptyString)) (String q EmptyString) = s)
    as [_ H] by exact H.
  apply (Split_byte_ind q
    (fun s pieces => pieces <> [] /\ strings.Join pieces (String q EmptyString) = s)).
  - done.
  - intros pre rest pieces Hpre [Hne IH]. split; [done |].
    unfold strings.Join in *.
    destruct pieces as [|p ps]; [done |].
    change (String.concat (String q "") (pre :: p :: ps))
      with (pre +:+ String q "" +:+ String.concat (String q "") (p :: ps)).
    by rewrite IH.
Qed.

End Splitting.

Section Lines.

Lemma Split_byte_app q a b :
  strings.Split (a +:+ String q b) (String q EmptyString)
    = strings.Split a (String q EmptyString) ++ strings.Split b (String q EmptyString).
Proof.
  revert a.
  apply (Split_byte_ind q
    (fun a pieces =>
       strings.Split (a +:+ String q b) (String q EmptyString)
       = pieces ++ strings.Split b (String q EmptyString))).
  - intros a Ha. by rewrite Split_byte_cons.
  - intros pre rest pieces Hpre IH.
    rewrite append_assoc', Split_byte_cons by done. by rewrite IH.
Qed.

Lemma splitLines_In s l :
  In l (splitLines s) <->
  nonEmpty l = true
  /\ exists p, In p (strings.Split s newline) /\ l = strings.TrimSpace p.
Proof.
  unfold splitLines.
  rewrite <- list_elem_of_In, list_elem_of_filter, list_elem_of_fmap.
  split.
  - intros [Hne (p & -> & Hp)]. split; [done |]. exists p. by rewrite <- list_elem_of_In.
  - intros [Hne (p & Hp & ->)]. split; [done |]. exists p. by rewrite list_elem_of_In.
Qed.

(** X1: Every line [splitLines] returns is non-empty, carries no white space at
    either end (trimming it again changes nothing) and holds no newline. *)
Theorem splitLines_lines_trimmed (s l : string) :
  In l (splitLines s) ->
  l <> "" /\ strings.TrimSpace l = l /\ hasByte "010" l = false.
Proof.
  intros (Hne & p & Hp & ->)%splitLines_In. repeat split.
  - intros Heq. by rewrite Heq in Hne.
  - apply TrimSpace_idemp.
  - apply TrimSpace_hasByte.
    pose proof (Split_pieces_hasByte "010" s) as Hall.
    rewrite Forall_forall in Hall. apply Hall. by rewrite list_elem_of_In.
Qed.

Lemma splitLines_lines_trimmed_witness :
  let s := "  gzip on;  " +:+ newline +:+ newline +:+ " add_header X-A 1; " in
  let l := "add_header X-A 1;" in
  l <> "" /\ strings.TrimSpace l = l /\ hasByte "010" l = false.
Proof.
  intros s l. apply (splitLines_lines_trimmed s l).
  vm_compute. right. left. reflexivity.
Defined.

(** X2: The lines of two snippets joined by a newline are the lines of the
    first followed by the lines of the second. *)
Theorem splitLines_app (a b : string) :
  splitLines (a +:+ newline +:+ b) = splitLines a ++ splitLines b.
Proof.
  unfold splitLines, newline.
  change (a +:+ String "010" "" +:+ b) with (a +:+ (String "010" "" +:+ b)).
  change (String "010" "" +:+ b) with (String "010" b).
  by rewrite Split_byte_app, fmap_app, filter_app.
Qed.

(** A snippet of white space only has no lines. *)
Lemma splitLines_blank s :
  isBlank s = true -> splitLines s = [].
Proof.
  intros Hs. unfold splitLines, newline.
  pose proof (Split_pieces_allBytes strings.isSpace "010" s Hs) as Hall.
  induction Hall as [|p ps Hp _ IH]; [done |].
  rewrite fmap_cons, filter_cons.
  rewrite (TrimSpace_blank p Hp). simpl.
  destruct (decide (false = true)); [done | exact IH].
Qed.

(** X3: Without the annotation, or with a snippet of white space only, the
    converter returns the context as it received it. *)
Theorem ConfigurationSnippet_blank_noop (ctx : Context) :
  match Annotations ctx !! snippetAnnotation with
  | None => True
  | Some snippet => isBlank snippet = true
  end ->
  ConfigurationSnippet ctx = ctx.
Proof.
  unfold ConfigurationSnippet.
  destruct (Annotations ctx !! snippetAnnotation) as [snippet|]; [| done].
  intros Hb. by rewrite splitLines_blank.
Qed.

Lemma ConfigurationSnippet_blank_noop_witness :
  let ctx := snippetContext ("   " +:+ newline +:+ "  ") freshResult in
  ConfigurationSnippet ctx = ctx.
Proof.
  intros ctx. apply (ConfigurationSnippet_blank_noop ctx).
  vm_compute. reflexivity.
Defined.

End Lines.

Section FieldsFacts.













End FieldsFacts.

Section HeaderLines.

Lemma append_assoc s t u : (s +:+ t) +:+ u = s +:+ (t +:+ u).
Proof.
  induction s as [|c s IH]; [done |].
  change (String c ((s +:+ t) +:+ u) = String c (s +:+ (t +:+ u))). by rewrite IH.
Qed.







End HeaderLines.

Section MoreSetHeaders.








End MoreSetHeaders.

Section GenericScan.






(** The switch and the table agree: a keyword is sent to the unsupported
    case exactly when the table has a message for it. *)
Lemma unsupported_cases d :
  isOneOf d ["gzip"; "gzip_comp_level"; "gzip_types"; "proxy_buffer_size"; "proxy_cache"]
    = true
  <-> is_Some (unsupported !! d).
Proof.
  split.
  - unfold isOneOf. simpl. rewrite !orb_true_iff, !String.eqb_eq.
    intros [-> | [-> | [-> | [-> | [-> | ?]]]]]; try done; vm_compute; eauto.
  - intros [u Hu]. unfold unsupported in Hu.
    apply elem_of_list_to_map_2 in Hu.
    rewrite !elem_of_cons in Hu.
    destruct Hu as [[= -> _] | [[= -> _] | [[= -> _] | [[= -> _] | [[= -> _] | Hu]]]]];
      try reflexivity.
    by apply elem_of_nil in Hu.
Qed.

(** X8: A line whose keyword has an entry in the table of unsupported
    directives gets exactly the warning of that entry, and no header. *)
Theorem genericStep_unsupported (st : genericState) (raw : string) (u : unsupportedDirective) :
  unsupported !! lineDirective raw = Some u ->
  genericStep st raw = addWarning st (unsupportedWarning u).
Proof.
  intros Hu. unfold genericStep. cbv zeta. fold (lineDirective raw).
  assert (Hcase : isOneOf (lineDirective raw)
            ["gzip"; "gzip_comp_level"; "gzip_types"; "proxy_buffer_size"; "proxy_cache"]
          = true) by (apply unsupported_cases; eauto).
  assert (Hne : nonEmpty (strings.TrimSpace raw) = true).
  { unfold lineDirective in Hcase. destruct (strings.TrimSpace raw); [done | done]. }
  rewrite Hne. simpl negb. cbv iota.
  assert (H1 : isOneOf (lineDirective raw) ["add_header"; "more_set_headers"] = false).
  { revert Hcase. unfold isOneOf. simpl. rewrite !orb_true_iff, !String.eqb_eq.
    intros [-> | [-> | [-> | [-> | [-> | ?]]]]]; done. }
  assert (H2 : isOneOf (lineDirective raw) ["proxy_set_header"] = false).
  { revert Hcase. unfold isOneOf. simpl. rewrite !orb_true_iff, !String.eqb_eq.
    intros [-> | [-> | [-> | [-> | [-> | ?]]]]]; done. }
  rewrite H1, H2, Hcase, Hu. reflexivity.
Qed.

Lemma genericStep_unsupported_witness :
  genericStep (genericScan []) "PROXY_CACHE my_zone;"
  = addWarning (genericScan [])
      "proxy_cache is not supported in Traefik OSS. Traefik Enterprise provides an alternative, but it cannot be auto-converted.".
Proof.
  apply (genericStep_unsupported (genericScan []) "PROXY_CACHE my_zone;"
           {| Enterprise := true; Message := "proxy_cache is not supported in Traefik OSS" |}).
  vm_compute. reflexivity.
Defined.

End GenericScan.

Section ScanGrowth.

Lemma size_insert_le (m : gmap string string) k v :
  (size (<[k := v]> m) <= S (size m))%nat.
Proof. rewrite map_size_insert. destruct (m !! k); simpl; lia. Qed.

(** One round of the generic scan: at most one warning is added after the
    ones recorded, at most one header entry is added, none is removed. *)
Lemma genericStep_grows st raw :
  (exists ws, warnings (genericStep st raw) = warnings st ++ ws /\ (length ws <= 1)%nat)
  /\ dom (reqHeaders st) ⊆ dom (reqHeaders (genericStep st raw))
  /\ dom (respHeaders st) ⊆ dom (respHeaders (genericStep st raw))
  /\ (size (reqHeaders (genericStep st raw)) + size (respHeaders (genericStep st raw))
      <= S (size (reqHeaders st) + size (respHeaders st)))%nat.
Proof.
  assert (Hsame : forall st' : genericState,
            (exists ws, warnings st' = warnings st' ++ ws /\ (length ws <= 1)%nat)).
  { intros st'. exists []. by rewrite app_nil_r; split; [| simpl; lia]. }
  unfold genericStep. cbv zeta.
  destruct (negb (nonEmpty (strings.TrimSpace raw))).
  { repeat split; [apply Hsame | done | done | lia]. }
  destruct (isOneOf _ ["add_header"; "more_set_headers"]).
  { destruct (parseResponseHeader (strings.TrimSpace raw)) as [[k v] [|]]; simpl.
    - repeat split; [apply Hsame | done | apply dom_insert_subseteq |].
      pose proof (size_insert_le (respHeaders st) k v). lia.
    - repeat split; [by eexists [_]; split; [| simpl; lia] | done | done | lia]. }
  destruct (isOneOf _ ["proxy_set_header"]).
  { destruct (parseProxySetHeader (strings.TrimSpace raw)) as [key val]. simpl.
    split.
    - destruct (strings.Contains val "$").
      + eexists [_]. split; [done | simpl; lia].
      + apply Hsame.
    - destruct (nonEmpty key).
      + repeat split; [apply dom_insert_subseteq | done |].
        pose proof (size_insert_le (reqHeaders st) key val). lia.
      + repeat split; [done | done | lia]. }
  destruct (isOneOf _ _).
  { destruct (unsupported !! _) as [u|]; simpl.
    - repeat split; [by eexists [_]; split; [| simpl; lia] | done | done | lia].
    - repeat split; [apply Hsame | done | done | lia]. }
  simpl. repeat split; [by eexists [_]; split; [| simpl; lia] | done | done | lia].
Qed.

Lemma fold_genericStep_grows lines st :
  (exists ws, warnings (fold_left genericStep lines st) = warnings st ++ ws
              /\ (length ws <= length lines)%nat)
  /\ dom (reqHeaders st) ⊆ dom (reqHeaders (fold_left genericStep lines st))
  /\ dom (respHeaders st) ⊆ dom (respHeaders (fold_left genericStep lines st))
  /\ (size (reqHeaders (fold_left genericStep lines st))
      + size (respHeaders (fold_left genericStep lines st))
      <= length lines + (size (reqHeaders st) + size (respHeaders st)))%nat.
Proof.
  revert st. induction lines as [|l rest IH]; intros st.
  - simpl. repeat split; [| done | done | lia].
    exists []. by rewrite app_nil_r.
  - cbn [fold_left].
    destruct (IH (genericStep st l)) as ((ws & Hws & Hlen) & Hreq & Hresp & Hsize).
    destruct (genericStep_grows st l) as ((w1 & Hw1 & Hlen1) & Hreq1 & Hresp1 & Hsize1).
    repeat split.
    + exists (w1 ++ ws). rewrite Hws, Hw1, <- app_assoc. split; [done |].
      rewrite length_app. simpl. lia.
    + by etrans.
    + by etrans.
    + simpl. lia.
Qed.

(** X9: Over a whole scan: no more warnings than lines, and no more header
    entries than lines. *)
Theorem genericScan_bounds (lines : list string) :
  (length (warnings (genericScan lines)) <= length lines)%nat
  /\ (size (reqHeaders (genericScan lines)) + size (respHeaders (genericScan lines))
      <= length lines)%nat.
Proof.
  unfold genericScan.
  destruct (fold_genericStep_grows lines
              {| reqHeaders := ∅; respHeaders := ∅; warnings := [] |})
    as ((ws & Hws & Hlen) & _ & _ & Hsize).
  split.
  - rewrite Hws. simpl. lia.
  - simpl in Hsize. rewrite !map_size_empty in Hsize. lia.
Qed.

(** X10: Scanning more lines only adds: the warnings of a scan are the first
    warnings of any longer scan, and a header name captured once is in the
    map for good. *)
Theorem genericScan_extends (lines more : list string) :
  warnings (genericScan lines) `prefix_of` warnings (genericScan (lines ++ more))
  /\ dom (reqHeaders (genericScan lines)) ⊆ dom (reqHeaders (genericScan (lines ++ more)))
  /\ dom (respHeaders (genericScan lines)) ⊆ dom (respHeaders (genericScan (lines ++ more))).
Proof.
  unfold genericScan. rewrite fold_left_app.
  destruct (fold_genericStep_grows more
              (fold_left genericStep lines
                 {| reqHeaders := ∅; respHeaders := ∅; warnings := [] |}))
    as ((ws & Hws & _) & Hreq & Hresp & _).
  repeat split; [| done | done].
  rewrite Hws. by apply prefix_app_r.
Qed.

End ScanGrowth.

Section CSV.

Lemma splitCSV_In v x :
  In x (splitCSV v) <->
  nonEmpty x = true /\ exists p, In p (strings.Split v ",") /\ x = strings.TrimSpace p.
Proof.
  unfold splitCSV.
  rewrite <- list_elem_of_In, list_elem_of_filter, list_elem_of_fmap.
  split.
  - intros [Hne (p & -> & Hp)]. split; [done |]. exists p. by rewrite <- list_elem_of_In.
  - intros [Hne (p & Hp & ->)]. split; [done |]. exists p. by rewrite list_elem_of_In.
Qed.

(** X11: Every item [splitCSV] returns is non-empty, trimmed and free of commas. *)
Theorem splitCSV_items (v x : string) :
  In x (splitCSV v) ->
  x <> "" /\ strings.TrimSpace x = x /\ hasByte "," x = false.
Proof.
  intros (Hne & p & Hp & ->)%splitCSV_In. repeat split.
  - intros Heq. by rewrite Heq in Hne.
  - apply TrimSpace_idemp.
  - apply TrimSpace_hasByte.
    pose proof (Split_pieces_hasByte "," v) as Hall.
    rewrite Forall_forall in Hall. apply Hall. by rewrite list_elem_of_In.
Qed.

Lemma splitCSV_items_witness :
  let x := "POST" in
  x <> "" /\ strings.TrimSpace x = x /\ hasByte "," x = false.
Proof.
  intros x. apply (splitCSV_items " GET ,POST,, OPTIONS" x).
  vm_compute. right. left. reflexivity.
Defined.






End CSV.

Section OriginPattern.

Lemma sliceFrom_append p r :
  strings.sliceFrom (p +:+ r) (strings.len p) = r.
Proof.
  unfold strings.sliceFrom, strings.len. rewrite Nat2Z.id, length_append.
  replace (String.length p + String.length r - String.length p)%nat
    with (String.length r) by lia.
  rewrite <- (Nat.add_0_r (String.length p)) at 1.
  rewrite substring_append_skip. apply substring_all.
Qed.

Lemma HasPrefix_split s p :
  strings.HasPrefix s p = true -> exists r, s = p +:+ r.
Proof.
  unfold strings.HasPrefix. revert s. induction p as [|c p IH]; intros s.
  - intros _. by exists s.
  - destruct s as [|d s]; [done |]. simpl.
    destruct (ascii_dec c d) as [<- |]; [| done].
    intros H. destruct (IH s H) as [r ->]. by exists r.
Qed.

Lemma HasPrefix_append p r : strings.HasPrefix (p +:+ r) p = true.
Proof.
  unfold strings.HasPrefix. induction p as [|c p IH]; [by destruct r |].
  change (String c p +:+ r) with (String c (p +:+ r)). simpl.
  destruct (ascii_dec c c); done.
Qed.

Lemma lit_append p r : originIfRe.lit p (p +:+ r) = Some r.
Proof. unfold originIfRe.lit. by rewrite HasPrefix_append, sliceFrom_append. Qed.

Lemma lit_Some p s r : originIfRe.lit p s = Some r -> s = p +:+ r.
Proof.
  unfold originIfRe.lit. destruct (strings.HasPrefix s p) eqn:Hp; [| done].
  destruct (HasPrefix_split s p Hp) as [r' ->]. rewrite sliceFrom_append.
  by intros [= ->].
Qed.

Lemma TrimLeftFunc_suffix f s :
  exists sp, s = sp +:+ strings.TrimLeftFunc f s.
Proof.
  induction s as [|c s [sp IH]]; [by exists "" |]. simpl.
  destruct (f c); [| by exists ""].
  exists (String c sp). change (String c s = String c (sp +:+ strings.TrimLeftFunc f s)).
  by rewrite <- IH.
Qed.

Lemma spaces1_Some s r : originIfRe.spaces1 s = Some r -> exists sp, s = sp +:+ r.
Proof.
  destruct s as [|c s]; [done |]. simpl. destruct (originIfRe.reSpace c); [| done].
  intros [= <-]. destruct (TrimLeftFunc_suffix originIfRe.reSpace s) as [sp Hsp].
  exists (String c sp). change (String c s = String c (sp +:+ strings.TrimLeftFunc originIfRe.reSpace s)).
  by rewrite <- Hsp.
Qed.

Lemma closes_Some s : originIfRe.closes s = true -> exists post, s = ")" +:+ post.
Proof.
  unfold originIfRe.closes. destruct (originIfRe.lit ")" s) as [r|] eqn:Hl; [| done].
  intros _. exists r. by apply lit_Some.
Qed.

(** What the lazy group takes: a non-empty run without newline, followed
    by the closing parenthesis. *)
Lemma lazyGroup_Some acc s g :
  originIfRe.lazyGroup acc s = Some g ->
  exists t post,
    s = t +:+ ")" +:+ post /\ nonEmpty t = true /\ hasByte "010" t = false
    /\ g = String.rev_app acc t.
Proof.
  revert acc. induction s as [|c s IH]; intros acc; [done |].
  cbn [originIfRe.lazyGroup].
  destruct (Ascii.eqb c "010") eqn:Hc; [done |].
  destruct (originIfRe.closes s) eqn:Hcl.
  - intros [= <-]. destruct (closes_Some s Hcl) as [post ->].
    exists (String c ""), post. repeat split. simpl. by rewrite Hc.
  - intros H. destruct (IH _ H) as (t & post & -> & Hne & Hnl & ->).
    exists (String c t), post. repeat split. simpl. by rewrite Hc, Hnl.
Qed.

Lemma matchHere_Some s g :
  originIfRe.matchHere s = Some g ->
  g <> "" /\ hasByte "010" g = false
  /\ exists pre post, s = pre +:+ "(" +:+ g +:+ ")" +:+ post.
Proof.
  unfold originIfRe.matchHere. intros H.
  destruct (originIfRe.lit "$http_origin" s) as [r1|] eqn:H1; [| done]. simpl in H.
  destruct (originIfRe.spaces1 r1) as [r2|] eqn:H2; [| done]. simpl in H.
  destruct (originIfRe.lit "~*" r2) as [r3|] eqn:H3; [| done]. simpl in H.
  destruct (originIfRe.spaces1 r3) as [r4|] eqn:H4; [| done]. simpl in H.
  destruct (originIfRe.lit "(" r4) as [r5|] eqn:H5; [| done]. simpl in H.
  apply lazyGroup_Some in H as (t & post & -> & Hne & Hnl & ->).
  apply lit_Some in H1, H3, H5.
  apply spaces1_Some in H2 as [sp2 H2], H4 as [sp4 H4].
  cbn [String.rev_app]. repeat split.
  - intros ->. done.
  - done.
  - exists ("$http_origin" +:+ sp2 +:+ "~*" +:+ sp4), post.
    subst s r1 r2 r3 r4. by rewrite !append_assoc.
Qed.

Lemma FindStringSubmatch_Some s g :
  originIfRe.FindStringSubmatch s = Some g ->
  g <> "" /\ hasByte "010" g = false
  /\ exists pre post, s = pre +:+ "(" +:+ g +:+ ")" +:+ post.
Proof.
  induction s as [|c s IH]; cbn [originIfRe.FindStringSubmatch].
  - destruct (originIfRe.matchHere "") eqn:Hm; [| done].
    intros [= <-]. by apply matchHere_Some in Hm.
  - destruct (originIfRe.matchHere (String c s)) eqn:Hm.
    + intros [= <-]. by apply matchHere_Some in Hm.
    + intros H. destruct (IH H) as (Hne & Hnl & pre & post & ->).
      repeat split; [done | done |]. by exists (String c pre), post.
Qed.

(** X13: The pattern of the first matching line wins. *)
Theorem extractOriginRegex_first_match (before after : list string) (l g : string) :
  (forall x, In x before -> originIfRe.FindStringSubmatch x = None) ->
  originIfRe.FindStringSubmatch l = Some g ->
  extractOriginRegex (before ++ l :: after) = (g, true).
Proof.
  intros Hbefore Hl. induction before as [|x before IH]; simpl.
  - by rewrite Hl.
  - rewrite (Hbefore x (or_introl eq_refl)). apply IH.
    intros y Hy. apply Hbefore. by right.
Qed.

Lemma extractOriginRegex_first_match_witness :
  extractOriginRegex
    ["# CORS"; "if ($http_origin ~* (^https://a\.example$)) {";
     "if ($http_origin ~* (^https://b\.example$)) {"]
  = ("^https://a\.example$", true).
Proof.
  apply (extractOriginRegex_first_match ["# CORS"]
           ["if ($http_origin ~* (^https://b\.example$)) {"]
           "if ($http_origin ~* (^https://a\.example$)) {").
  - intros x [<- | []]. vm_compute. reflexivity.
  - vm_compute. reflexivity.
Defined.

Lemma corsStep_OriginRegex cfg raw : OriginRegex (corsStep cfg raw) = OriginRegex cfg.
Proof.
  unfold corsStep. cbv zeta.
  repeat (match goal with |- context [if ?b then _ else _] => destruct b end);
    reflexivity.
Qed.

Lemma corsScan_OriginRegex lines origin : OriginRegex (corsScan lines origin) = origin.
Proof.
  unfold corsScan.
  assert (Hgen : forall cfg, OriginRegex (fold_left corsStep lines cfg) = OriginRegex cfg).
  { induction lines as [|l rest IH]; intros cfg; [done |].
    simpl. by rewrite IH, corsStep_OriginRegex. }
  by rewrite Hgen.
Qed.

(** X14: A successful extraction gives the emitted middleware exactly one origin
    pattern: the capture of the first matching line, which is not empty,
    holds no newline and stands between parentheses on that line. *)
Theorem parseConditionalCORSSnippet_origin (lines : list string) (cfg : corsConfig) :
  parseConditionalCORSSnippet lines = inl cfg ->
  dynamic.AccessControlAllowOriginListRegex (corsHeaders cfg) = [OriginRegex cfg]
  /\ extractOriginRegex lines = (OriginRegex cfg, true)
  /\ OriginRegex cfg <> ""
  /\ hasByte "010" (OriginRegex cfg) = false
  /\ exists l pre post,
       In l lines /\ l = pre +:+ "(" +:+ OriginRegex cfg +:+ ")" +:+ post.
Proof.
  unfold parseConditionalCORSSnippet.
  destruct (extractOriginRegex lines) as [origin [|]] eqn:Hre; [| done].
  intros [= <-].
  assert (Ho : OriginRegex
                 (if (length (AllowMethods (corsScan lines origin)) =? 0)%nat
                  then {| OriginRegex := OriginRegex (corsScan lines origin);
                          AllowHeaders := AllowHeaders (corsScan lines origin);
                          AllowMethods := defaultMethods;
                          AllowCreds := AllowCreds (corsScan lines origin);
                          MaxAge := MaxAge (corsScan lines origin) |}
                  else corsScan lines origin) = origin).
  { destruct (_ =? _)%nat; simpl; apply corsScan_OriginRegex. }
  rewrite Ho. split; [by simpl; rewrite Ho |]. split; [done |].
  destruct (extractOriginRegex_found lines origin Hre) as (l & Hin & Hl).
  destruct (FindStringSubmatch_Some l origin Hl) as (Hne & Hnl & pre & post & Heq).
  repeat split; [done | done |]. by exists l, pre, post.
Qed.

Lemma parseConditionalCORSSnippet_origin_witness :
  let lines := ["if ($http_origin ~* (https://example\.com)) {";
                "add_header Access-Control-Allow-Methods 'GET';"; "}"] in
  let cfg := {| OriginRegex := "https://example\.com"; AllowHeaders := [];
                AllowMethods := ["GET"]; AllowCreds := None; MaxAge := 0 |} in
  dynamic.AccessControlAllowOriginListRegex (corsHeaders cfg) = ["https://example\.com"].
Proof.
  intros lines cfg.
  destruct (parseConditionalCORSSnippet_origin lines cfg) as [H _].
  - vm_compute. reflexivity.
  - exact H.
Defined.

End OriginPattern.

Section OriginGuard.

Lemma closes_not_paren c s :
  Ascii.eqb c ")" = false -> originIfRe.closes (String c s) = false.
Proof.
  intros Hc. unfold originIfRe.closes, originIfRe.lit.
  change ")" with (String ")" ""). by rewrite HasPrefix_byte, Hc.
Qed.

Lemma lazyGroup_guard acc p post :
  nonEmpty p = true -> hasByte ")" p = false -> hasByte "010" p = false ->
  originIfRe.closes (")" +:+ post) = true ->
  originIfRe.lazyGroup acc (p +:+ ")" +:+ post) = Some (String.rev (String.rev_app p acc)).
Proof.
  intros Hne Hp Hnl Hcl. revert acc Hne Hp Hnl.
  induction p as [|c p IH]; intros acc Hne Hp Hnl; [done |].
  simpl in Hp, Hnl.
  apply orb_false_elim in Hp as [Hc Hp]. apply orb_false_elim in Hnl as [Hcn Hnl].
  change (String c p +:+ ")" +:+ post) with (String c (p +:+ ")" +:+ post)).
  cbn [originIfRe.lazyGroup]. rewrite Hcn.
  destruct p as [|d p'].
  - change ("" +:+ ")" +:+ post) with (")" +:+ post). by rewrite Hcl.
  - change (String d p' +:+ ")" +:+ post) with (String d (p' +:+ ")" +:+ post)).
    simpl in Hp. apply orb_false_elim in Hp as [Hd Hp'].
    rewrite closes_not_paren by done.
    change (String d (p' +:+ ")" +:+ post)) with (String d p' +:+ ")" +:+ post).
    rewrite IH; [done | done | by simpl; rewrite Hd | done].
Qed.

Lemma matchHere_unfold s :
  originIfRe.matchHere s =
    match originIfRe.lit "$http_origin" s with
    | None => None
    | Some r1 =>
        match originIfRe.spaces1 r1 with
        | None => None
        | Some r2 =>
            match originIfRe.lit "~*" r2 with
            | None => None
            | Some r3 =>
                match originIfRe.spaces1 r3 with
                | None => None
                | Some r4 =>
                    match originIfRe.lit "(" r4 with
                    | None => None
                    | Some r5 => originIfRe.lazyGroup "" r5
                    end
                end
            end
        end
    end.
Proof. reflexivity. Qed.

(** X15: The guard line written around a pattern gives the pattern back, for
    every non-empty pattern without a closing parenthesis or a newline. *)
Theorem FindStringSubmatch_originGuardLine (pattern : string) :
  nonEmpty pattern = true ->
  hasByte ")" pattern = false -> hasByte "010" pattern = false ->
  originIfRe.FindStringSubmatch (originGuardLine pattern) = Some pattern.
Proof.
  intros Hne Hp Hnl. unfold originGuardLine.
  set (tail := pattern +:+ ")) {").
  change ("if ($http_origin ~* (" +:+ tail)
    with (String "i" (String "f" (String " " (String "("
            ("$http_origin" +:+ (" ~* (" +:+ tail)))))).
  do 4 (cbn [originIfRe.FindStringSubmatch];
        match goal with
        | |- context [originIfRe.matchHere (String ?c ?s)] =>
            change (originIfRe.matchHere (String c s)) with (@None string)
        end; cbv iota).
  assert (Hm : originIfRe.matchHere ("$http_origin" +:+ (" ~* (" +:+ tail)) = Some pattern).
  { rewrite matchHere_unfold.
    rewrite (lit_append "$http_origin" (" ~* (" +:+ tail)).
    change (originIfRe.spaces1 (" ~* (" +:+ tail)) with (Some ("~*" +:+ (" (" +:+ tail))).
    cbv iota. rewrite (lit_append "~*" (" (" +:+ tail)).
    change (originIfRe.spaces1 (" (" +:+ tail)) with (Some ("(" +:+ tail)).
    cbv iota. rewrite (lit_append "(" tail).
    subst tail. change (pattern +:+ ")) {") with (pattern +:+ ")" +:+ ") {").
    rewrite lazyGroup_guard by done.
    f_equal. unfold String.rev. rewrite rev_app_rev_app.
    cbn [String.rev_app]. apply append_empty. }
  destruct ("$http_origin" +:+ (" ~* (" +:+ tail)) eqn:Hs; [done |].
  cbn [originIfRe.FindStringSubmatch]. by rewrite Hm.
Qed.

Lemma FindStringSubmatch_originGuardLine_witness :
  originIfRe.FindStringSubmatch (originGuardLine "^https://[a-z]+\.example\.com$")
  = Some "^https://[a-z]+\.example\.com$".
Proof.
  apply (FindStringSubmatch_originGuardLine "^https://[a-z]+\.example\.com$");
    vm_compute; reflexivity.
Defined.

End OriginGuard.

Section Scheme.

(** X16: [resolveScheme] either succeeds with one of three schemes, for which
    the entry point is websecure exactly when the scheme is https and web
    otherwise, or fails with an empty scheme and the one error message; it
    never fails when grpc-backend is "true". *)
Theorem resolveScheme_outcomes (annotations : gmap string string) :
  match resolveScheme annotations with
  | (scheme, None) =>
      (scheme = "http" \/ scheme = "https" \/ scheme = "h2c")
      /\ (entryPointsForScheme scheme = ["websecure"] <-> scheme = "https")
      /\ (entryPointsForScheme scheme = ["web"] <-> scheme <> "https")
  | (scheme, Some e) =>
      scheme = ""
      /\ errors.Message e = "unsupported backend-protocol"
      /\ mapIndex annotations models.GrpcBackend <> "true"
      /\ mapIndex annotations models.BackendProtocol <> ""
  end.
Proof.
  unfold resolveScheme.
  destruct (String.eqb_spec (mapIndex annotations models.GrpcBackend) "true") as [Hg | Hg].
  { split; [by right; right |]. by split. }
  cbv zeta.
  destruct (isOneOf _ [""; "HTTP"]) eqn:H1; [split; [by left |]; by split |].
  destruct (isOneOf _ ["HTTPS"]); [split; [by right; left |]; by split |].
  destruct (isOneOf _ ["GRPC"]); [split; [by right; right |]; by split |].
  destruct (isOneOf _ ["GRPCS"]); [split; [by right; left |]; by split |].
  repeat split; [done |].
  intros Hbp. by rewrite Hbp in H1.
Qed.

Lemma resolveScheme_error_protocol (annotations : gmap string string) e :
  snd (resolveScheme annotations) = Some e ->
  mapIndex annotations models.BackendProtocol <> "".
Proof.
  unfold resolveScheme.
  destruct (String.eqb _ "true"); [done |]. cbv zeta.
  destruct (isOneOf _ [""; "HTTP"]) eqn:H1; [done |].
  intros _ Hbp. by rewrite Hbp in H1.
Qed.

(** X17: When no ingress route is needed the scheme resolves, without error, to
    plain http on the web entry point. *)
Theorem resolveScheme_not_needed (ann : gmap string string) :
  NeedsIngressRoute ann = false ->
  resolveScheme ann = ("http", None)
  /\ entryPointsForScheme (fst (resolveScheme ann)) = ["web"].
Proof.
  unfold NeedsIngressRoute, resolveScheme, mapIndex.
  destruct (String.eqb _ "true"); [done |].
  destruct (ann !! models.BackendProtocol); [done |]. by intros _.
Qed.

Lemma resolveScheme_not_needed_witness :
  let ann : gmap string string := {[ models.SslRedirect := "true" ]} in
  resolveScheme ann = ("http", None)
  /\ entryPointsForScheme (fst (resolveScheme ann)) = ["web"].
Proof.
  intros ann. apply (resolveScheme_not_needed ann). vm_compute. reflexivity.
Defined.

End Scheme.

Section Converters.

Lemma warnWhen_extends ctx ctx' mws ws cond w :
  extends ctx ctx' mws ws ->
  extends ctx (warnWhen cond w ctx') mws (ws ++ (if cond then [w] else [])).
Proof.
  intros H. unfold warnWhen. destruct cond.
  - by apply extends_appendWarnings.
  - by rewrite app_nil_r.
Qed.

(** The warnings [ExtraAnnotations] appends, test by test. *)
Lemma ExtraAnnotations_extends ctx :
  let ann := Annotations ctx in
  extends ctx (ExtraAnnotations ctx) []
    ((if String.eqb (mapIndex ann models.ProxyBuffering) "off"
      then [proxyBufferingWarning] else [])
     ++ (if String.eqb (mapIndex ann models.ServiceUpstream) "true"
         then [serviceUpstreamWarning] else [])
     ++ (if String.eqb (mapIndex ann models.EnableOpentracing) "true"
         then [opentracingWarning] else [])
     ++ (if String.eqb (mapIndex ann models.EnableOpentelemetry) "true"
         then [opentelemetryWarning] else [])
     ++ (if nonEmpty (mapIndex ann models.BackendProtocol)
         then [backendProtocolWarning] else [])
     ++ (if String.eqb (mapIndex ann models.GrpcBackend) "true"
         then [grpcBackendWarning] else [])).
Proof.
  intros ann. unfold ExtraAnnotations. fold ann. cbv zeta.
  pose proof (extends_refl ctx) as H0.
  apply (warnWhen_extends _ _ _ _ (String.eqb (mapIndex ann models.ProxyBuffering) "off")
           proxyBufferingWarning) in H0.
  apply (warnWhen_extends _ _ _ _ (String.eqb (mapIndex ann models.ServiceUpstream) "true")
           serviceUpstreamWarning) in H0.
  apply (warnWhen_extends _ _ _ _ (String.eqb (mapIndex ann models.EnableOpentracing) "true")
           opentracingWarning) in H0.
  apply (warnWhen_extends _ _ _ _ (String.eqb (mapIndex ann models.EnableOpentelemetry) "true")
           opentelemetryWarning) in H0.
  apply (warnWhen_extends _ _ _ _ (nonEmpty (mapIndex ann models.BackendProtocol))
           backendProtocolWarning) in H0.
  apply (warnWhen_extends _ _ _ _ (String.eqb (mapIndex ann models.GrpcBackend) "true")
           grpcBackendWarning) in H0.
  simpl app in H0. by rewrite <- !app_assoc in H0.
Qed.

Lemma sublist_when (cond : bool) (w : string) ws ws' :
  ws `sublist_of` ws' ->
  (if cond then [w] else []) ++ ws `sublist_of` w :: ws'.
Proof.
  intros H. destruct cond; simpl; [by apply sublist_skip | by apply sublist_cons].
Qed.

Lemma elem_of_when (cond : bool) (w x : string) :
  x ∈ (if cond then [w] else []) -> x = w.
Proof.
  destruct cond; [by intros ?%list_elem_of_singleton | by intros ?%elem_of_nil].
Qed.

Lemma ExtraAnnotations_only_warns_aux ctx :
  exists ws, extends ctx (ExtraAnnotations ctx) [] ws.
Proof. eexists. apply ExtraAnnotations_extends. Qed.

(** X18: [ExtraAnnotations] touches nothing but the warnings: it appends a
    selection of its six messages, in their fixed order, each at most
    once. *)
Theorem ExtraAnnotations_only_warns (ctx : Context) :
  exists ws : list string,
    extends ctx (ExtraAnnotations ctx) [] ws
    /\ ws `sublist_of` extraWarnings.
Proof.
  eexists. split; [apply ExtraAnnotations_extends |].
  unfold extraWarnings.
  do 5 apply sublist_when.
  destruct (String.eqb _ _); [done | apply sublist_nil_l].
Qed.

(** X19: The two warnings that point to the generated ingress routes are only
    recorded for an ingress that needs one. *)
Theorem ExtraAnnotations_route_warnings (ctx : Context) (ws : list string) (w : string) :
  Warnings (Result (ExtraAnnotations ctx)) = Warnings (Result ctx) ++ ws ->
  In w ws ->
  w = backendProtocolWarning \/ w = grpcBackendWarning ->
  NeedsIngressRoute (Annotations ctx) = true.
Proof.
  intros Hws Hi Hw.
  destruct (ExtraAnnotations_extends ctx) as (_ & _ & _ & _ & Hws').
  rewrite Hws' in Hws. apply app_inv_head in Hws. subst ws.
  rewrite <- list_elem_of_In in Hi.
  unfold NeedsIngressRoute, mapIndex in *.
  destruct (String.eqb _ "true") eqn:Hg in |- *; [done |].
  rewrite Hg in Hi.
  destruct (Annotations ctx !! models.BackendProtocol) as [bp|]; [done |].
  exfalso. cbn [nonEmpty] in Hi. rewrite !app_nil_r in Hi.
  rewrite !elem_of_app in Hi.
  assert (Hcases : w = proxyBufferingWarning \/ w = serviceUpstreamWarning
                   \/ w = opentracingWarning \/ w = opentelemetryWarning).
  { destruct Hi as [Hi | [Hi | [Hi | Hi]]];
      apply elem_of_when in Hi; auto. }
  destruct Hw as [-> | ->];
    destruct Hcases as [H | [H | [H | H]]]; vm_compute in H; discriminate H.
Qed.

Lemma ExtraAnnotations_route_warnings_witness :
  let ctx := {| IngressName := "web"; Namespace := "default";
                Annotations := {[ models.BackendProtocol := "GRPC" ]};
                Result := freshResult |} in
  NeedsIngressRoute (Annotations ctx) = true.
Proof.
  intros ctx.
  apply (ExtraAnnotations_route_warnings ctx [backendProtocolWarning]
           backendProtocolWarning).
  - vm_compute. reflexivity.
  - by left.
  - by left.
Defined.

(** X20: An unsupported backend protocol is never silent: whenever
    [resolveScheme] fails, [ExtraAnnotations] records the backend-protocol
    warning for the same annotations. *)
Theorem resolveScheme_error_warned (ctx : Context) (e : errors.ConverterError) :
  snd (resolveScheme (Annotations ctx)) = Some e ->
  In backendProtocolWarning (Warnings (Result (ExtraAnnotations ctx))).
Proof.
  intros He.
  pose proof (resolveScheme_error_protocol (Annotations ctx)) as Hbp.
  destruct (resolveScheme (Annotations ctx)) as [s [e'|]]; [| done].
  specialize (Hbp e' eq_refl).
  destruct (ExtraAnnotations_extends ctx) as (_ & _ & _ & _ & ->).
  rewrite <- list_elem_of_In, !elem_of_app.
  right. do 4 right. left.
  destruct (mapIndex (Annotations ctx) models.BackendProtocol); [done |].
  apply list_elem_of_singleton. reflexivity.
Qed.

Lemma resolveScheme_error_warned_witness :
  In backendProtocolWarning
     (Warnings (Result (ExtraAnnotations
        {| IngressName := "web"; Namespace := "default";
           Annotations := {[ models.BackendProtocol := "FCGI" ]};
           Result := freshResult |}))).
Proof.
  apply (resolveScheme_error_warned _ {| errors.Message := "unsupported backend-protocol" |}).
  vm_compute. reflexivity.
Defined.

End Converters.

Section Pipeline.

Lemma extends_trans a b c m1 w1 m2 w2 :
  extends a b m1 w1 -> extends b c m2 w2 -> extends a c (m1 ++ m2) (w1 ++ w2).
Proof.
  intros (Hi1 & Hn1 & Ha1 & Hm1 & Hw1) (Hi2 & Hn2 & Ha2 & Hm2 & Hw2).
  unfold extends. rewrite Hi2, Hn2, Ha2, Hm2, Hw2, Hm1, Hw1, !app_assoc. done.
Qed.

Lemma newHeadersMiddleware_wellFormed ctx name h :
  wellFormedMiddleware ctx (newHeadersMiddleware ctx name h).
Proof. repeat split; simpl; done. Qed.

Lemma SSLRedirect_extends ctx :
  exists mws,
    extends ctx (SSLRedirect ctx) mws [] /\ (length mws <= 1)%nat
    /\ Forall (wellFormedMiddleware ctx) mws.
Proof.
  unfold SSLRedirect. cbv zeta. destruct (_ && _).
  - exists []. split; [apply extends_refl |]. split; [simpl; lia | constructor].
  - eexists [_]. split; [| split; [simpl; lia |]].
    + apply (extends_appendMiddleware ctx ctx [] [] _ (extends_refl ctx)).
    + constructor; [| constructor]. repeat split; simpl; done.
Qed.




Lemma UpstreamVHost_extends ctx :
  exists mws,
    extends ctx (UpstreamVHost ctx) mws [] /\ (length mws <= 1)%nat
    /\ Forall (wellFormedMiddleware ctx) mws.
Proof.
  unfold UpstreamVHost.
  destruct (Annotations ctx !! models.UpstreamVhost) as [val|];
    [| exists []; split; [apply extends_refl | split; [simpl; lia | constructor]]].
  destruct (negb _).
  - exists []. split; [apply extends_refl |]. split; [simpl; lia | constructor].
  - eexists [_]. split; [| split; [simpl; lia |]].
    + apply (extends_appendMiddleware ctx ctx [] [] _ (extends_refl ctx)).
    + constructor; [apply newHeadersMiddleware_wellFormed | constructor].
Qed.

Lemma converter_extends c ctx :
  isConverter c ->
  exists mws ws,
    extends ctx (c ctx) mws ws /\ (length mws <= 1)%nat
    /\ Forall (wellFormedMiddleware ctx) mws.
Proof.
  intros [-> | [-> | [-> | ->]]].
  - destruct (SSLRedirect_extends ctx) as (mws & H & Hl & Hwf). by exists mws, [].
  - destruct (UpstreamVHost_extends ctx) as (mws & H & Hl & Hwf). by exists mws, [].
  - destruct (ConfigurationSnippet_outcomes ctx) as (mws & ws & H & Hc).
    exists mws, ws. split; [done |].
    destruct Hc as [-> | [[st ->] | [cfg ->]]]; (split; [simpl; lia |]);
      repeat constructor; apply newHeadersMiddleware_wellFormed.
  - destruct (ExtraAnnotations_only_warns_aux ctx) as (ws & H).
    exists [], ws. split; [done |]. split; [simpl; lia | constructor].
Qed.

Lemma wellFormedMiddleware_naming ctx ctx' mw :
  Namespace ctx' = Namespace ctx ->
  wellFormedMiddleware ctx' mw -> wellFormedMiddleware ctx mw.
Proof. unfold wellFormedMiddleware. by intros ->. Qed.

Lemma runConverters_run cs ctx :
  Forall isConverter cs ->
  exists mws ws,
    extends ctx (runConverters cs ctx) mws ws /\ (length mws <= length cs)%nat
    /\ Forall (wellFormedMiddleware ctx) mws.
Proof.
  intros Hcs. revert ctx. induction Hcs as [|c cs Hc Hcs IH]; intros ctx.
  - exists [], []. split; [apply extends_refl |]. split; [simpl; lia | constructor].
  - unfold runConverters. cbn [fold_left]. fold (runConverters cs (c ctx)).
    destruct (converter_extends c ctx Hc) as (m1 & w1 & H1 & Hl1 & Hwf1).
    destruct (IH (c ctx)) as (m2 & w2 & H2 & Hl2 & Hwf2).
    exists (m1 ++ m2), (w1 ++ w2). split; [by eapply extends_trans |]. split.
    + rewrite length_app. simpl. lia.
    + apply Forall_app. split; [done |].
      eapply Forall_impl; [exact Hwf2 |]. intros mw.
      apply wellFormedMiddleware_naming. by destruct H1 as (_ & -> & _).
Qed.

(** X22: However the four converters are sequenced, and however often each is
    run, the run only appends to the shared result: what was there stays in
    place, at most one middleware is added per converter run, and the
    naming fields and annotations of the context stay as they were. *)
Theorem runConverters_only_appends (cs : list (Context -> Context)) (ctx : Context) :
  Forall isConverter cs ->
  exists mws ws,
    extends ctx (runConverters cs ctx) mws ws /\ (length mws <= length cs)%nat.
Proof.
  intros Hcs. destruct (runConverters_run cs ctx Hcs) as (mws & ws & H & Hl & _).
  by exists mws, ws.
Qed.

Lemma runConverters_only_appends_witness :
  let ctx := {| IngressName := "web"; Namespace := "default";
                Annotations := {[ models.SslRedirect := "true" ]};
                Result := freshResult |} in
  exists mws ws,
    extends ctx (runConverters [SSLRedirect; ExtraAnnotations; ConfigurationSnippet] ctx)
      mws ws
    /\ (length mws <= 3)%nat.
Proof.
  intros ctx.
  apply (runConverters_only_appends [SSLRedirect; ExtraAnnotations; ConfigurationSnippet] ctx).
  repeat apply Forall_cons_2; [by left | by do 3 right | by do 2 right; left | constructor].
Defined.

(** X23: Every middleware a run of converters appends is a Traefik Middleware
    object in the namespace of the ingress and carries exactly one payload,
    a headers specification or a redirect scheme. *)
Theorem runConverters_well_formed (cs : list (Context -> Context)) (ctx : Context) :
  Forall isConverter cs ->
  exists mws,
    Middlewares (Result (runConverters cs ctx)) = Middlewares (Result ctx) ++ mws
    /\ Forall (wellFormedMiddleware ctx) mws.
Proof.
  intros Hcs. destruct (runConverters_run cs ctx Hcs) as (mws & ws & H & _ & Hwf).
  exists mws. split; [| done]. by destruct H as (_ & _ & _ & -> & _).
Qed.

Lemma runConverters_well_formed_witness :
  let ctx := {| IngressName := "web"; Namespace := "default";
                Annotations := {[ models.UpstreamVhost := "internal.example" ]};
                Result := freshResult |} in
  exists mws,
    Middlewares (Result (runConverters [UpstreamVHost; SSLRedirect] ctx))
      = Middlewares (Result ctx) ++ mws
    /\ Forall (wellFormedMiddleware ctx) mws.
Proof.
  intros ctx. apply (runConverters_well_formed [UpstreamVHost; SSLRedirect] ctx).
  repeat apply Forall_cons_2; [by right; left | by left | constructor].
Defined.

Lemma warnWhen_appendMiddleware cond w ctx mw :
  warnWhen cond w (appendMiddleware ctx mw) = appendMiddleware (warnWhen cond w ctx) mw.
Proof. by destruct cond. Qed.

Lemma ExtraAnnotations_appendMiddleware ctx mw :
  ExtraAnnotations (appendMiddleware ctx mw) = appendMiddleware (ExtraAnnotations ctx) mw.
Proof.
  unfold ExtraAnnotations. cbv zeta.
  change (Annotations (appendMiddleware ctx mw)) with (Annotations ctx).
  by rewrite !warnWhen_appendMiddleware.
Qed.

(** X24: [ExtraAnnotations] can run before or after [SSLRedirect] and
    [UpstreamVHost]: the resulting context is the same. *)
Theorem ExtraAnnotations_commutes (ctx : Context) :
  ExtraAnnotations (SSLRedirect ctx) = SSLRedirect (ExtraAnnotations ctx)
  /\ ExtraAnnotations (UpstreamVHost ctx) = UpstreamVHost (ExtraAnnotations ctx).
Proof.
  destruct (ExtraAnnotations_extends ctx) as (Hi & Hn & Ha & _ & _).
  split.
  - unfold SSLRedirect. cbv zeta. rewrite Ha.
    destruct (_ && _); [done |].
    rewrite ExtraAnnotations_appendMiddleware. unfold mwName. by rewrite Hi, Hn.
  - unfold UpstreamVHost. rewrite Ha.
    destruct (Annotations ctx !! models.UpstreamVhost) as [val|]; [| done].
    destruct (negb _); [done |].
    rewrite ExtraAnnotations_appendMiddleware.
    by rewrite (newHeadersMiddleware_naming ctx (ExtraAnnotations ctx)).
Qed.

End Pipeline.

Section MoreSnippet.

(** X25: One disqualifying line anywhere in the snippet sends the whole snippet
    to the generic pass. *)
Theorem ConfigurationSnippet_disqualified (ctx : Context) (snippet l : string) :
  Annotations ctx !! snippetAnnotation = Some snippet ->
  In l (splitLines snippet) -> isDisqualifying l = true ->
  ConfigurationSnippet ctx = convertGenericSnippet ctx (splitLines snippet).
Proof.
  intros Ha Hin Hd. unfold ConfigurationSnippet. rewrite Ha.
  destruct (splitLines snippet) as [|l0 rest] eqn:Hlines; [done |].
  change (length (l0 :: rest) =? 0)%nat with false. cbv iota.
  destruct (isConditionalCORSSnippet (l0 :: rest)) eqn:Hdet; [| done].
  apply isConditionalCORSSnippet_iff in Hdet as (_ & _ & Hno).
  rewrite (Hno l Hin) in Hd. done.
Qed.

Lemma ConfigurationSnippet_disqualified_witness :
  let snippet :=
    "if ($http_origin ~* (https://example\.com)) {" +:+ newline
    +:+ "add_header Access-Control-Allow-Methods 'GET';" +:+ newline
    +:+ "rewrite ^ /foo;" +:+ newline +:+ "}" in
  let ctx := snippetContext snippet freshResult in
  ConfigurationSnippet ctx = convertGenericSnippet ctx (splitLines snippet).
Proof.
  intros snippet ctx.
  apply (ConfigurationSnippet_disqualified ctx snippet "rewrite ^ /foo;").
  - vm_compute. reflexivity.
  - vm_compute. right. right. left. reflexivity.
  - vm_compute. reflexivity.
Defined.

Lemma isQuote_cases c :
  isQuote c = false <-> Ascii.eqb c "034" = false /\ Ascii.eqb c "'" = false.
Proof. unfold isQuote. apply orb_false_iff. Qed.



Lemma parseUintLoop_range s n :
  0 <= n <= strconv.maxUint64 ->
  0 <= fst (strconv.parseUintLoop s n) <= strconv.maxUint64.
Proof.
  revert n. induction s as [|c s IH]; intros n Hn; [done |].
  cbn [strconv.parseUintLoop].
  destruct (strconv.digitVal c) as [d|]; [| unfold strconv.maxUint64; simpl; lia].
  destruct (_ <=? n); [unfold strconv.maxUint64; simpl; lia |].
  cbv zeta. destruct (_ || _) eqn:Hov; [unfold strconv.maxUint64; simpl; lia |].
  apply IH. apply orb_false_elim in Hov as [_ Hov]. apply Z.ltb_ge in Hov.
  split; [| done]. apply Z.mod_pos_bound. lia.
Qed.

(** [ParseInt] stays within the 64-bit signed range, error or not. *)
Lemma ParseInt10_range s :
  - 2 ^ 63 <= fst (strconv.ParseInt10 s) <= 2 ^ 63 - 1.
Proof.
  unfold strconv.ParseInt10. destruct s as [|c s]; [simpl; lia |].
  destruct (if Ascii.eqb c "+" then _ else _) as [neg digits].
  pose proof (parseUintLoop_range digits 0 ltac:(unfold strconv.maxUint64; lia)) as Hr.
  unfold strconv.ParseUint10.
  destruct digits as [|d ds]; [simpl; lia |].
  destruct (strconv.parseUintLoop (String d ds) 0) as [un [[|]|]]; simpl in Hr;
    try (simpl; lia);
    destruct neg; simpl negb; cbv zeta;
    destruct (Z.leb_spec (2 ^ 63) un); destruct (Z.ltb_spec (2 ^ 63) un);
    simpl; lia.
Qed.

Lemma extractInt_range line : - 2 ^ 63 <= extractInt line <= 2 ^ 63 - 1.
Proof.
  unfold extractInt. destruct (last (strings.Fields line)); [| lia].
  apply ParseInt10_range.
Qed.

(** X27: Whatever the lines hold, the max-age a scan leaves is a non-negative
    64-bit integer. *)
Theorem corsScan_MaxAge_range (lines : list string) (origin : string) :
  0 <= MaxAge (corsScan lines origin) <= 2 ^ 63 - 1.
Proof.
  unfold corsScan.
  assert (Hgen : forall cfg, 0 <= MaxAge cfg <= 2 ^ 63 - 1 ->
                             0 <= MaxAge (fold_left corsStep lines cfg) <= 2 ^ 63 - 1).
  { induction lines as [|l rest IH]; intros cfg Hcfg; [done |].
    simpl. apply IH. unfold corsStep. cbv zeta.
    destruct (strings.Contains _ "access-control-allow-headers"); [done |].
    destruct (strings.Contains _ "access-control-allow-methods"); [done |].
    destruct (strings.Contains _ "access-control-allow-credentials").
    { by destruct (_ || _). }
    destruct (strings.Contains _ "access-control-max-age"); [| done].
    destruct (Z.ltb_spec 0 (extractInt (strings.TrimSpace l))); [| done].
    simpl. pose proof (extractInt_range (strings.TrimSpace l)). lia. }
  apply Hgen. simpl. lia.
Qed.

End MoreSnippet.
